(** * Reference-object extraction from .pkg files

    A shallow embedding of [checks/reference_objects.py]: the per-file
    extractor [process_pkg_for_references] (ElementTree walk with a regular
    expression fallback) and the directory walker [check_reference_objects],
    followed by the properties proved about them. *)

From Stdlib Require Import List NArith Bool String Ascii Arith Lia Permutation.
Import ListNotations.

Set Warnings "-register-all".

(** ** Python text

    A Python [str] is a sequence of Unicode code points; a code point is a
    natural number. *)

Definition char := N.
Definition str := list char.

Definition dquote : char := 34%N.
Definition apostrophe : char := 39%N.

(** [py "abc"] is the [str] of an ASCII literal. *)
Definition py (s : string) : str := map N_of_ascii (list_ascii_of_string s).

(** [xml "<a b='c'/>"] is the same, with every apostrophe of the literal
    standing for a double quote, so that markup with double-quoted
    attributes can be written down directly. *)
Definition xml (s : string) : str :=
  map (fun c => if N.eqb c apostrophe then dquote else c) (py s).

Fixpoint str_eqb (a b : str) : bool :=
  match a, b with
  | [], [] => true
  | x :: a', y :: b' => N.eqb x y && str_eqb a' b'
  | _, _ => false
  end.

(** Truth value of a [str]: the empty string is false. *)
Definition truthy (s : str) : bool :=
  match s with [] => false | _ :: _ => true end.

(** [str.isspace] on one code point ([Py_UNICODE_ISSPACE]). *)
Definition isspace (c : char) : bool :=
  ((9 <=? c) && (c <=? 13) || (28 <=? c) && (c <=? 32)
   || (c =? 133) || (c =? 160) || (c =? 5760)
   || (8192 <=? c) && (c <=? 8202)
   || (c =? 8232) || (c =? 8233) || (c =? 8239) || (c =? 8287)
   || (c =? 12288))%N.

Fixpoint lstrip (s : str) : str :=
  match s with
  | c :: s' => if isspace c then lstrip s' else s
  | [] => []
  end.

Definition rstrip (s : str) : str := rev (lstrip (rev s)).

(** [s.strip()] *)
Definition strip (s : str) : str := rstrip (lstrip s).

Fixpoint startswith (s prefix : str) : bool :=
  match prefix, s with
  | [], _ => true
  | p :: prefix', c :: s' => N.eqb c p && startswith s' prefix'
  | _ :: _, [] => false
  end.

(** [s.endswith(suffix)] *)
Definition endswith (s suffix : str) : bool :=
  startswith (rev s) (rev suffix).

(** ** The [re] fragment used by the two fallback patterns

    Both patterns are sequences of literal characters, of greedy
    repetitions of a negated one-character class and of capturing groups
    around such a repetition; they are compiled with [re.IGNORECASE]. *)

Module Re.

Inductive group := G1 | G2.

Inductive item :=
| Literal (c : char)
| NotLiteralStar (c : char)
| CaptureNotLiteralStar (g : group) (c : char).

Definition regex := list item.

Definition literals (s : str) : regex := map Literal s.

(** Lower-casing as [re] applies it to subject characters under
    IGNORECASE.  It is exact on every code point whose lower case is an
    ASCII letter (A-Z, U+0130 and U+212A); other code points are left
    alone, which cannot change a comparison with an ASCII character. *)
Definition tolower (c : char) : char :=
  (if (65 <=? c) && (c <=? 90) then c + 32
   else if c =? 304 then 105
   else if c =? 8490 then 107
   else c)%N.

Definition literal_matches (c x : char) : bool :=
  N.eqb (tolower x) (tolower c).

Definition captures := (str * str)%type.

Definition set_group (g : group) (v : str) (caps : captures) : captures :=
  match g with
  | G1 => (v, snd caps)
  | G2 => (fst caps, v)
  end.

(** Greedy repetition of "any character but [c]": take the longest run
    of characters other than [c], run the continuation, and give
    characters back one at a time while the continuation fails. *)
Fixpoint not_literal_star {R} (c : char) (s : str)
    (k : str -> str -> option R) : option R :=
  match s with
  | x :: s' =>
      if negb (N.eqb x c) then
        match not_literal_star c s' (fun taken rest => k (x :: taken) rest) with
        | Some r => Some r
        | None => k [] s
        end
      else k [] s
  | [] => k [] s
  end.

(** Match [p] at the start of [s]; on success the groups and the unread
    rest of [s]. *)
Fixpoint match_here (p : regex) (s : str) (caps : captures)
    : option (captures * str) :=
  match p with
  | [] => Some (caps, s)
  | Literal c :: p' =>
      match s with
      | x :: s' => if literal_matches c x then match_here p' s' caps else None
      | [] => None
      end
  | NotLiteralStar c :: p' =>
      not_literal_star c s (fun _ rest => match_here p' rest caps)
  | CaptureNotLiteralStar g c :: p' =>
      not_literal_star c s
        (fun taken rest => match_here p' rest (set_group g taken caps))
  end.

(** [re.findall] for a pattern with two groups: scan left to right, and
    after a match resume where it ended.  [skip] counts the characters
    of the last match still to be passed over. *)
Fixpoint findall_from (p : regex) (s : str) (skip : nat)
    : list (str * str) :=
  match skip with
  | S skip' =>
      match s with
      | _ :: s' => findall_from p s' skip'
      | [] => []
      end
  | O =>
      match match_here p s ([], []) with
      | Some (caps, rest) =>
          caps ::
          match s with
          | _ :: s' => findall_from p s' (List.length s - List.length rest - 1)
          | [] => []
          end
      | None =>
          match s with
          | _ :: s' => findall_from p s' 0
          | [] => []
          end
      end
  end.

Definition findall (p : regex) (s : str) : list (str * str) :=
  findall_from p s 0.

End Re.

(** The forward pattern of the source.  Written with ' for the double
    quote and with braces for the two capturing groups, it reads
    <Object[^>]*Type='{[^']*}'[^>]*Reference='true'[^>]*>{[^<]*}</Object> *)
Definition pattern : Re.regex :=
  Re.literals (py "<Object") ++ [Re.NotLiteralStar 62%N]
  ++ Re.literals (xml "Type='") ++ [Re.CaptureNotLiteralStar Re.G1 dquote]
  ++ Re.literals (xml "'") ++ [Re.NotLiteralStar 62%N]
  ++ Re.literals (xml "Reference='true'") ++ [Re.NotLiteralStar 62%N]
  ++ Re.literals (py ">") ++ [Re.CaptureNotLiteralStar Re.G2 60%N]
  ++ Re.literals (py "</Object>").

(** The reverse pattern, in the same notation:
    <Object[^>]*Reference='true'[^>]*Type='{[^']*}'[^>]*>{[^<]*}</Object> *)
Definition pattern_reverse : Re.regex :=
  Re.literals (py "<Object") ++ [Re.NotLiteralStar 62%N]
  ++ Re.literals (xml "Reference='true'") ++ [Re.NotLiteralStar 62%N]
  ++ Re.literals (xml "Type='") ++ [Re.CaptureNotLiteralStar Re.G1 dquote]
  ++ Re.literals (xml "'") ++ [Re.NotLiteralStar 62%N]
  ++ Re.literals (py ">") ++ [Re.CaptureNotLiteralStar Re.G2 60%N]
  ++ Re.literals (py "</Object>").

(** ** ElementTree elements

    What [ET.fromstring] returns: the root of a tree of elements.  An
    element has a tag, a dictionary of attributes, and the text between
    its start tag and its first child ([None] when there is none).  The
    tail is left out: the program never reads it. *)

Inductive Element :=
| mkElement (tag : str) (attrib : list (str * str)) (text : option str)
            (children : list Element).

Definition tag (e : Element) : str :=
  match e with mkElement t _ _ _ => t end.
Definition attrib (e : Element) : list (str * str) :=
  match e with mkElement _ a _ _ => a end.
Definition text (e : Element) : option str :=
  match e with mkElement _ _ t _ => t end.
Definition children (e : Element) : list Element :=
  match e with mkElement _ _ _ c => c end.

(** [dict.get(key)] *)
Fixpoint dict_get (d : list (str * str)) (key : str) : option str :=
  match d with
  | [] => None
  | (k, v) :: d' => if str_eqb k key then Some v else dict_get d' key
  end.

(** [elem.get(key)] and [elem.get(key, default)] *)
Definition get (e : Element) (key : str) : option str :=
  dict_get (attrib e) key.

Definition get_default (e : Element) (key default : str) : str :=
  match get e key with
  | Some v => v
  | None => default
  end.

(** [elem.iter()]: the element, then its descendants, in document order. *)
Fixpoint iter (e : Element) : list Element :=
  match e with
  | mkElement _ _ _ cs => e :: flat_map iter cs
  end.

(** ** Records and exceptions *)

Record ReferenceObject := mkReferenceObject {
  object_name : str;
  object_type : str;
  pkg_file_path : str;
  line_number : nat
}.

(** The exceptions the program can meet.  [ParseError] is
    [xml.etree.ElementTree.ParseError]; [OSError] comes from [open] and
    [read]; [OtherException] is any other subclass of [Exception].  Each
    carries the text that [str(e)] gives. *)
Inductive exception :=
| ParseError (msg : str)
| OSError (msg : str)
| OtherException (msg : str).

Definition exception_str (e : exception) : str :=
  match e with
  | ParseError m | OSError m | OtherException m => m
  end.

(** ** Statements of a function body

    The body of [process_pkg_for_references] appends to the list
    [results] and may raise.  A computation takes the current [results]
    and gives back the new list together with either a value or the
    exception that ended it; what was appended before an exception stays
    appended. *)

Module Body.

Definition M (A : Type) : Type :=
  list ReferenceObject -> (exception + A) * list ReferenceObject.

Definition ret {A} (a : A) : M A := fun results => (inr a, results).

Definition bind {A B} (m : M A) (f : A -> M B) : M B :=
  fun results =>
    match m results with
    | (inr a, results') => f a results'
    | (inl e, results') => (inl e, results')
    end.

(** A library call that returns or raises. *)
Definition call {A} (r : exception + A) : M A := fun results => (r, results).

(** [results.append(r)] *)
Definition append (r : ReferenceObject) : M unit :=
  fun results => (inr tt, results ++ [r]).

(** Reading the variable [results]. *)
Definition read_results : M (list ReferenceObject) :=
  fun results => (inr results, results).

(** [try: body  except ET.ParseError: handler] *)
Definition try_except_ParseError (body handler : M unit) : M unit :=
  fun results =>
    match body results with
    | (inl (ParseError _), results') => handler results'
    | other => other
    end.

(** [for x in xs: body x] *)
Fixpoint for_each {A} (xs : list A) (body : A -> M unit) : M unit :=
  match xs with
  | [] => ret tt
  | x :: xs' => bind (body x) (fun _ => for_each xs' body)
  end.

End Body.

Notation "x <- m ;; k" := (Body.bind m (fun x => k))
  (at level 61, m at next level, right associativity).
Notation "m ;;; k" := (Body.bind m (fun _ => k))
  (at level 61, right associativity).
Definition pass : Body.M unit := Body.ret tt.

(** ** Directory trees

    What [os.scandir] shows of a directory: its entries in the order the
    system lists them.  An entry for which [is_dir()] holds carries
    whether it is a symbolic link and the listing of the directory behind
    it ([None] when listing it raises [OSError]); every other entry is
    reported by [os.walk] among the files. *)

Inductive dirent :=
| File (name : str)
| Directory (name : str) (is_symlink : bool) (listing : option (list dirent)).

Definition dirent_name (e : dirent) : str :=
  match e with File n | Directory n _ _ => n end.

Definition is_dir (e : dirent) : bool :=
  match e with File _ => false | Directory _ _ _ => true end.

(** [posixpath.join(a, b)] *)
Definition posix_join (a b : str) : str :=
  if startswith b (py "/") then b
  else if negb (truthy a) || endswith a (py "/") then a ++ b
  else a ++ py "/" ++ b.

Section Program.

(** The world outside the program: [read_text path] is what
    [open(path, "r", encoding="utf-8", errors="ignore")] followed by
    [f.read()] gives (the decoded text, or the [OSError] raised; with
    [errors="ignore"] decoding itself never raises); [ET_fromstring] is
    the XML parser; [scandir path] is the directory tree found at [path]
    ([None] when [os.scandir(path)] raises [OSError]: nothing there, not
    a directory, not permitted); [os_path_join] is the platform's
    [os.path.join]. *)
Variable read_text : str -> exception + str.
Variable ET_fromstring : str -> exception + Element.
Variable scandir : str -> option (list dirent).
Variable os_path_join : str -> str -> str.

(** ** The extractor *)

Definition new_record (object_name object_type file_path : str)
    : ReferenceObject :=
  {| object_name := object_name;
     object_type := object_type;
     pkg_file_path := file_path;
     line_number := 0 |}.

(** The test inside [any(...)] (source lines 79-81). *)
Definition same_triple (ref : ReferenceObject) (name type path : str) : bool :=
  str_eqb (object_name ref) name
  && str_eqb (object_type ref) type
  && str_eqb (pkg_file_path ref) path.

(** The loop over [root.iter()] (source lines 36-50). *)
Definition structured_pass (file_path : str) (root : Element) : Body.M unit :=
  Body.for_each (iter root) (fun obj_elem =>
    if endswith (tag obj_elem) (py "Object")
       || str_eqb (tag obj_elem) (py "Object") then
      let reference_attr := get obj_elem (py "Reference") in
      match reference_attr with
      | Some v =>
          if str_eqb v (py "true") then
            let object_type := get_default obj_elem (py "Type") (py "Unknown") in
            let object_name :=
              match text obj_elem with
              | Some t => if truthy t then strip t else []
              | None => []
              end in
            if truthy object_name then
              Body.append (new_record object_name object_type file_path)
            else pass
          else pass
      | None => pass
      end
    else pass).

(** The handler of [ET.ParseError] (source lines 53-90). *)
Definition fallback_pass (file_path content : str) : Body.M unit :=
  let matches := Re.findall pattern content in
  Body.for_each matches (fun '(object_type, object_name) =>
    let object_name := strip object_name in
    if truthy object_name then
      Body.append (new_record object_name object_type file_path)
    else pass) ;;;
  let matches_reverse := Re.findall pattern_reverse content in
  Body.for_each matches_reverse (fun '(object_type, object_name) =>
    let object_name := strip object_name in
    if truthy object_name then
      results <- Body.read_results ;;
      let existing :=
        existsb (fun ref => same_triple ref object_name object_type file_path)
                results in
      if negb existing then
        Body.append (new_record object_name object_type file_path)
      else pass
    else pass).

(** The body of the outer [try] (source lines 28-90). *)
Definition try_body (file_path : str) : Body.M unit :=
  content <- Body.call (read_text file_path) ;;
  Body.try_except_ParseError
    (root <- Body.call (ET_fromstring content) ;;
     structured_pass file_path root)
    (fallback_pass file_path content).

(** The line printed by the outer handler. *)
Definition warning (file_path : str) (e : exception) : str :=
  py "Warning: Error processing " ++ file_path ++ py ": " ++ exception_str e.

(** [process_pkg_for_references(file_path)]: the list returned and the
    lines printed. *)
Definition process_pkg_for_references (file_path : str)
    : list ReferenceObject * list str :=
  match try_body file_path [] with
  | (inr _, results) => (results, [])
  | (inl e, results) => (results, [warning file_path e])
  end.

(** ** The walker *)

Definition walk_triple := (str * list str * list str)%type.

(** [os.walk(top)], top-down, errors ignored, symbolic links to
    directories listed but not entered: one triple
    [(root, dirs, files)] per directory reached. *)
Fixpoint walk_entry (top : str) (e : dirent) : list walk_triple :=
  match e with
  | File _ => []
  | Directory name is_symlink listing =>
      if is_symlink then []
      else
        match listing with
        | None => []
        | Some entries =>
            let new_path := os_path_join top name in
            (new_path,
             map dirent_name (filter is_dir entries),
             map dirent_name (filter (fun e => negb (is_dir e)) entries))
            :: flat_map (walk_entry new_path) entries
        end
  end.

Definition walk_listing (top : str) (entries : list dirent)
    : list walk_triple :=
  (top,
   map dirent_name (filter is_dir entries),
   map dirent_name (filter (fun e => negb (is_dir e)) entries))
  :: flat_map (walk_entry top) entries.

Definition os_walk (top : str) : list walk_triple :=
  match scandir top with
  | None => []
  | Some entries => walk_listing top entries
  end.

(** The inner loop [for file in files] (source lines 113-117), on the
    pair of [all_references] and the lines printed so far. *)
Definition scan_files (root : str) (files : list str)
    (acc : list ReferenceObject * list str)
    : list ReferenceObject * list str :=
  fold_left (fun '(all_references, printed) file =>
    if endswith file (py ".pkg") then
      let file_path := os_path_join root file in
      let '(references, lines) := process_pkg_for_references file_path in
      (all_references ++ references, printed ++ lines)
    else (all_references, printed)) files acc.

(** [check_reference_objects(project_path)]: the list returned and the
    lines printed. *)
Definition check_reference_objects (project_path : str)
    : list ReferenceObject * list str :=
  fold_left (fun acc '(root, _, files) => scan_files root files acc)
            (os_walk project_path) ([], []).

End Program.

(** ** A reference XML parser

    The theorems below hold for whatever [ET_fromstring] does.  To run the
    program on concrete files, this section gives a parser for the part of
    XML the examples use: one root element, elements with quoted
    attributes, character data.  Declarations, comments, processing
    instructions, CDATA sections, entity and character references,
    namespaces and names outside ASCII are [OutsideSubset]: the parser
    does not speak about such documents. *)

Module XmlSubset.

Inductive verdict (A : Type) :=
| Good (a : A)
| NotWellFormed
| OutsideSubset.
Arguments Good {A} a.
Arguments NotWellFormed {A}.
Arguments OutsideSubset {A}.

Definition vbind {A B} (v : verdict A) (f : A -> verdict B) : verdict B :=
  match v with
  | Good a => f a
  | NotWellFormed => NotWellFormed
  | OutsideSubset => OutsideSubset
  end.

Definition is_xml_char (c : char) : bool :=
  ((c =? 9) || (c =? 10) || (c =? 13)
   || (32 <=? c) && (c <=? 55295)
   || (57344 <=? c) && (c <=? 65533)
   || (65536 <=? c) && (c <=? 1114111))%N.

Definition is_xml_space (c : char) : bool :=
  ((c =? 32) || (c =? 9) || (c =? 10) || (c =? 13))%N.

Definition is_name_start (c : char) : bool :=
  ((65 <=? c) && (c <=? 90) || (97 <=? c) && (c <=? 122) || (c =? 95))%N.

Definition is_name_char (c : char) : bool :=
  (is_name_start c || (48 <=? c) && (c <=? 57) || (c =? 45) || (c =? 46))%N.

(** A colon or a character outside ASCII inside a name. *)
Definition is_foreign_name_char (c : char) : bool :=
  ((c =? 58) || (128 <=? c))%N.

(** *** Cutting the text into character data and markup *)

Inductive segment :=
| Chars (s : str)
| Markup (s : str).

Inductive scan_mode := InText | InTag | InDouble | InSingle.

Definition flush (acc : str) (rest : list segment) : list segment :=
  match acc with
  | [] => rest
  | _ :: _ => Chars (rev acc) :: rest
  end.

Definition vcons {A} (a : A) (v : verdict (list A)) : verdict (list A) :=
  vbind v (fun l => Good (a :: l)).

(** [acc] holds the characters of the current segment, last one first. *)
Fixpoint segments (s : str) (mode : scan_mode) (acc : str)
    : verdict (list segment) :=
  match s with
  | [] =>
      match mode with
      | InText => Good (flush acc [])
      | _ => NotWellFormed
      end
  | c :: s' =>
      match mode with
      | InText =>
          if (c =? 60)%N then
            vbind (segments s' InTag []) (fun l => Good (flush acc l))
          else if (c =? 38)%N then OutsideSubset
          else if (c =? 62)%N && startswith acc (py "]]") then NotWellFormed
          else segments s' InText (c :: acc)
      | InTag =>
          if (c =? 62)%N then vcons (Markup (rev acc)) (segments s' InText [])
          else if (c =? 60)%N then NotWellFormed
          else if (c =? dquote)%N then segments s' InDouble (c :: acc)
          else if (c =? apostrophe)%N then segments s' InSingle (c :: acc)
          else segments s' InTag (c :: acc)
      | InDouble =>
          if (c =? 60)%N then NotWellFormed
          else if (c =? dquote)%N then segments s' InTag (c :: acc)
          else segments s' InDouble (c :: acc)
      | InSingle =>
          if (c =? 60)%N then NotWellFormed
          else if (c =? apostrophe)%N then segments s' InTag (c :: acc)
          else segments s' InSingle (c :: acc)
      end
  end.

(** *** Reading one piece of markup *)

Inductive token :=
| StartTag (name : str) (attrs : list (str * str))
| EmptyTag (name : str) (attrs : list (str * str))
| EndTag (name : str)
| CharData (s : str).

Inductive attr_state :=
| Between (spaced : bool)
| InName (acc : str)
| AfterName (name : str)
| AfterEq (name : str)
| InValue (name : str) (quote : char) (acc : str).

(** The attributes after the element name; the boolean tells an
    empty-element tag. *)
Fixpoint attributes (r : str) (st : attr_state) (done : list (str * str))
    : verdict (list (str * str) * bool) :=
  match r with
  | [] =>
      match st with
      | Between _ => Good (rev done, false)
      | _ => NotWellFormed
      end
  | c :: r' =>
      match st with
      | Between spaced =>
          if is_xml_space c then attributes r' (Between true) done
          else if (c =? 47)%N then
            match r' with
            | [] => Good (rev done, true)
            | _ :: _ => NotWellFormed
            end
          else if is_name_start c then
            if spaced then attributes r' (InName [c]) done else NotWellFormed
          else if is_foreign_name_char c then OutsideSubset
          else NotWellFormed
      | InName acc =>
          if is_name_char c then attributes r' (InName (c :: acc)) done
          else if is_xml_space c then attributes r' (AfterName (rev acc)) done
          else if (c =? 61)%N then attributes r' (AfterEq (rev acc)) done
          else if is_foreign_name_char c then OutsideSubset
          else NotWellFormed
      | AfterName name =>
          if is_xml_space c then attributes r' (AfterName name) done
          else if (c =? 61)%N then attributes r' (AfterEq name) done
          else NotWellFormed
      | AfterEq name =>
          if is_xml_space c then attributes r' (AfterEq name) done
          else if (c =? dquote)%N || (c =? apostrophe)%N
          then attributes r' (InValue name c []) done
          else NotWellFormed
      | InValue name quote acc =>
          if (c =? quote)%N then
            if str_eqb name (py "xmlns") then OutsideSubset
            else
              match dict_get done name with
              | Some _ => NotWellFormed
              | None => attributes r' (Between false) ((name, rev acc) :: done)
              end
          else if (c =? 60)%N then NotWellFormed
          else if (c =? 38)%N then OutsideSubset
          else if is_xml_space c
          then attributes r' (InValue name quote (32%N :: acc)) done
          else attributes r' (InValue name quote (c :: acc)) done
      end
  end.

(** Split off the longest prefix of name characters. *)
Fixpoint name_prefix (s : str) : str * str :=
  match s with
  | c :: s' =>
      if is_name_char c then
        let '(n, r) := name_prefix s' in (c :: n, r)
      else ([], s)
  | [] => ([], [])
  end.

Definition read_name (s : str) : verdict (str * str) :=
  match s with
  | c :: _ =>
      if is_name_start c then
        let '(n, r) := name_prefix s in
        match r with
        | c' :: _ =>
            if is_foreign_name_char c' then OutsideSubset else Good (n, r)
        | [] => Good (n, r)
        end
      else if is_foreign_name_char c then OutsideSubset
      else NotWellFormed
  | [] => NotWellFormed
  end.

Definition token_of (seg : segment) : verdict token :=
  match seg with
  | Chars s => Good (CharData s)
  | Markup m =>
      match m with
      | [] => NotWellFormed
      | c :: m' =>
          if (c =? 33)%N || (c =? 63)%N then OutsideSubset
          else if (c =? 47)%N then
            vbind (read_name m') (fun '(n, r) =>
              if forallb is_xml_space r then Good (EndTag n)
              else NotWellFormed)
          else
            vbind (read_name m) (fun '(n, r) =>
              vbind (attributes r (Between false) []) (fun '(attrs, empty) =>
                Good (if empty : bool then EmptyTag n attrs
                      else StartTag n attrs)))
      end
  end.

Fixpoint tokens (segs : list segment) : verdict (list token) :=
  match segs with
  | [] => Good []
  | seg :: segs' =>
      vbind (token_of seg) (fun t => vcons t (tokens segs'))
  end.

(** *** Building the tree *)

(** An element still open: its children so far are kept last one first. *)
Record frame := mkFrame {
  f_tag : str;
  f_attrib : list (str * str);
  f_text : option str;
  f_children : list Element
}.

Definition close_frame (f : frame) : Element :=
  mkElement (f_tag f) (f_attrib f) (f_text f) (rev (f_children f)).

Definition add_child (e : Element) (stack : list frame) (root : option Element)
    : verdict (list frame * option Element) :=
  match stack with
  | f :: stack' =>
      Good (mkFrame (f_tag f) (f_attrib f) (f_text f) (e :: f_children f)
              :: stack', root)
  | [] =>
      match root with
      | None => Good ([], Some e)
      | Some _ => NotWellFormed
      end
  end.

Fixpoint build (toks : list token) (stack : list frame) (root : option Element)
    : verdict Element :=
  match toks with
  | [] =>
      match stack, root with
      | [], Some e => Good e
      | _, _ => NotWellFormed
      end
  | CharData s :: toks' =>
      match stack with
      | [] => if forallb is_xml_space s then build toks' [] root
              else NotWellFormed
      | f :: stack' =>
          match f_children f with
          | [] => build toks' (mkFrame (f_tag f) (f_attrib f) (Some s) []
                                 :: stack') root
          | _ :: _ => build toks' stack root
          end
      end
  | StartTag n a :: toks' =>
      match stack, root with
      | [], Some _ => NotWellFormed
      | _, _ => build toks' (mkFrame n a None [] :: stack) root
      end
  | EmptyTag n a :: toks' =>
      vbind (add_child (mkElement n a None []) stack root)
            (fun '(stack', root') => build toks' stack' root')
  | EndTag n :: toks' =>
      match stack with
      | f :: stack' =>
          if str_eqb (f_tag f) n then
            vbind (add_child (close_frame f) stack' root)
                  (fun '(stack'', root') => build toks' stack'' root')
          else NotWellFormed
      | [] => NotWellFormed
      end
  end.

Definition parse (s : str) : verdict Element :=
  if forallb is_xml_char s then
    vbind (segments s InText []) (fun segs =>
      vbind (tokens segs) (fun toks => build toks [] None))
  else NotWellFormed.

(** The parser as an [ET_fromstring]. *)
Definition fromstring (s : str) : exception + Element :=
  match parse s with
  | Good e => inr e
  | NotWellFormed => inl (ParseError (py "not well-formed"))
  | OutsideSubset => inl (OtherException (py "outside the modelled subset"))
  end.

End XmlSubset.

(** * What the specification says, as definitions of its own *)

(** ** Structured path *)

(** The tag is exactly [Object] or ends in [Object]. *)
Definition is_object_tag (e : Element) : bool :=
  str_eqb (tag e) (py "Object") || endswith (tag e) (py "Object").

(** The [Reference] attribute is there and is exactly [true]. *)
Definition reference_is_true (e : Element) : bool :=
  match get e (py "Reference") with
  | Some v => str_eqb v (py "true")
  | None => false
  end.

(** The direct text of the element, trimmed. *)
Definition trimmed_text (e : Element) : str :=
  match text e with
  | Some t => strip t
  | None => []
  end.

(** A qualifying element marked as a reference, with a name. *)
Definition contributes (e : Element) : bool :=
  is_object_tag e && reference_is_true e && truthy (trimmed_text e).

Definition record_of (file_path : str) (e : Element) : ReferenceObject :=
  new_record (trimmed_text e)
             (match get e (py "Type") with
              | Some t => t
              | None => py "Unknown"
              end)
             file_path.

Definition structured_records (file_path : str) (root : Element)
    : list ReferenceObject :=
  map (record_of file_path) (filter contributes (iter root)).

(** ** Fallback path *)

(** The record of one pattern match, if its text is not blank. *)
Definition match_record (file_path : str) (m : str * str)
    : list ReferenceObject :=
  if truthy (strip (snd m))
  then [new_record (strip (snd m)) (fst m) file_path]
  else [].

Definition forward_records (file_path content : str) : list ReferenceObject :=
  flat_map (match_record file_path) (Re.findall pattern content).

Definition reverse_records (file_path content : str) : list ReferenceObject :=
  flat_map (match_record file_path) (Re.findall pattern_reverse content).

Definition present (r : ReferenceObject) (acc : list ReferenceObject) : bool :=
  existsb (fun ref =>
    same_triple ref (object_name r) (object_type r) (pkg_file_path r)) acc.

Definition add_unless_present (acc : list ReferenceObject) (r : ReferenceObject)
    : list ReferenceObject :=
  if present r acc then acc else acc ++ [r].

(** Forward records as found, then the reverse records not yet there. *)
Definition fallback_records (file_path content : str) : list ReferenceObject :=
  fold_left add_unless_present (reverse_records file_path content)
            (forward_records file_path content).

(** ** The record invariant *)

Definition record_invariant (file_path : str) (r : ReferenceObject) : Prop :=
  object_name r <> []
  /\ (exists c, In c (object_name r) /\ isspace c = false)
  /\ strip (object_name r) = object_name r
  /\ pkg_file_path r = file_path
  /\ line_number r = 0.

(** Built without a line number. *)
Definition unnumbered (r : ReferenceObject) : Prop := line_number r = 0.

Definition ReferenceObject_eq_dec (a b : ReferenceObject) : {a = b} + {a <> b}.
Proof.
  decide equality;
    try apply Nat.eq_dec; apply (list_eq_dec N.eq_dec).
Defined.

(** How many times a record occurs in a list. *)
Definition occurrences (r : ReferenceObject) (l : list ReferenceObject) : nat :=
  count_occ ReferenceObject_eq_dec l r.

(** ** The files of a subtree *)

Definition is_pkg (file : str) : bool := endswith file (py ".pkg").

Section Subtree.

Variable scandir : str -> option (list dirent).
Variable os_path_join : str -> str -> str.

(** The files at or below an entry of directory [dir], each with the
    directory it is listed in.  Symbolic links to directories and
    directories that cannot be listed hold no files. *)
Fixpoint files_below (dir : str) (e : dirent) : list (str * str) :=
  match e with
  | File name => [(dir, name)]
  | Directory name is_symlink listing =>
      if is_symlink then []
      else
        match listing with
        | None => []
        | Some entries =>
            flat_map (files_below (os_path_join dir name)) entries
        end
  end.

Definition subtree_files (top : str) : list (str * str) :=
  match scandir top with
  | None => []
  | Some entries => flat_map (files_below top) entries
  end.

(** The paths of the [.pkg] files of the subtree. *)
Definition subtree_pkg_paths (top : str) : list str :=
  map (fun df => os_path_join (fst df) (snd df))
      (filter (fun df => is_pkg (snd df)) (subtree_files top)).

(** The same paths in the order [os.walk] reports them. *)
Definition walked_pkg_paths (top : str) : list str :=
  flat_map (fun t : walk_triple =>
              map (os_path_join (fst (fst t))) (filter is_pkg (snd t)))
           (os_walk scandir os_path_join top).

End Subtree.

(** ** Paths in walk order *)

Section WalkOrderDefs.

Variable os_path_join : str -> str -> str.

Definition triple_paths (t : walk_triple) : list str :=
  map (os_path_join (fst (fst t))) (filter is_pkg (snd t)).

Definition pkg_paths_of (l : list (str * str)) : list str :=
  map (fun df => os_path_join (fst df) (snd df))
      (filter (fun df => is_pkg (snd df)) l).

End WalkOrderDefs.

(** * Concrete files and directories *)

Module Demo.

(** The example of the specification for the structured path. *)
Definition foo_content : str :=
  xml "<Root><MyObject Type='File' Reference='true'>foo.txt</MyObject></Root>".

Definition foo_root : Element :=
  mkElement (py "Root") [] None
    [mkElement (py "MyObject")
       [(py "Type", py "File"); (py "Reference", py "true")]
       (Some (py "foo.txt")) []].

(** An element marked as a reference that names no type. *)
Definition untyped_content : str :=
  xml "<Objects><Object Reference='true'> Logical </Object></Objects>".

Definition untyped_element : Element :=
  mkElement (py "Object") [(py "Reference", py "true")]
            (Some (py " Logical ")) [].

Definition untyped_root : Element :=
  mkElement (py "Objects") [] None [untyped_element].

(** A world with a single readable file, whatever its path. *)
Definition single_file (content : str) (path : str) : exception + str :=
  inr content.

(** A project directory: two [.pkg] files, one of which cannot be read,
    and a file of another kind. *)
Definition package_content : str :=
  xml ("<Package><Objects>"
       ++ "<Object Type='File' Reference='true'>one.st</Object>"
       ++ "<Object Type='Package' Reference='true'>Two</Object>"
       ++ "<Object Type='File'>three.st</Object>"
       ++ "</Objects></Package>").

Definition project_scandir (path : str) : option (list dirent) :=
  if str_eqb path (py "proj") then
    Some [File (py "a.pkg"); File (py "notes.txt");
          Directory (py "sub") false (Some [File (py "b.pkg")])]
  else if str_eqb path (py "docs") then
    Some [File (py "readme.txt");
          Directory (py "img") false (Some [File (py "logo.png")])]
  else None.

(** A parser that gives up for a reason of its own. *)
Definition failing_parser (content : str) : exception + Element :=
  inl (OtherException (py "maximum recursion depth exceeded")).

(** An element whose [Reference] is spelt [True]. *)
Definition capital_true_content : str :=
  xml "<Objects><Object Type='File' Reference='True'>a.st</Object></Objects>".

Definition project_read (path : str) : exception + str :=
  if str_eqb path (py "proj/a.pkg") then inr package_content
  else inl (OSError (py "[Errno 13] Permission denied")).

End Demo.

(** ** Contents that are not well formed *)

Module Malformed.

(** Two equal elements, each with [Type] on both sides of [Reference], so
    that each is matched by the forward and by the reverse pattern. *)
Definition twice_both : str :=
  xml ("<Object Type='A' Reference='true' Type='A'>X</Object>"
       ++ "<Object Type='A' Reference='true' Type='A'>X</Object>").

(** Two equal elements in the forward order. *)
Definition twice_forward : str :=
  xml ("<Object Type='A' Reference='true'>X</Object>"
       ++ "<Object Type='A' Reference='true'>X</Object>").

(** One element in the forward order and an equal one in the reverse
    order. *)
Definition forward_then_reverse : str :=
  xml ("<Object Type='A' Reference='true'>X</Object>"
       ++ "<Object Reference='true' Type='A'>X</Object>").

(** The example of the specification for the fallback path: the last tag
    opens a second element instead of closing the first. *)
Definition unclosed : str :=
  xml "<Object Type='Lib' Reference='true'>bar.lib<Object>".

(** The same element, closed, followed by a tag that is never closed. *)
Definition closed_then_open : str :=
  xml "<Object Type='Lib' Reference='true'>bar.lib</Object><Object>".

(** An element without [Reference], inside a root that is never closed. *)
Definition cross_reference_element : str :=
  xml "<Object Type='A' CrossReference='true'>X</Object>".

Definition cross_reference : str := py "<Root>" ++ cross_reference_element.

(** An element without [Type], inside a root that is never closed. *)
Definition sub_type_element : str :=
  xml "<Object SubType='A' Reference='true'>X</Object>".

Definition sub_type : str := py "<Root>" ++ sub_type_element.

Definition not_well_formed : exception + Element :=
  inl (ParseError (py "not well-formed")).

End Malformed.

(** ** What a match looks like *)

(** [ci_eq lit s]: [s] reads [lit] when the case of letters is ignored. *)
Definition ci_eq (lit s : str) : Prop :=
  Forall2 (fun c x => Re.literal_matches c x = true) lit s.

Fixpoint starts_ci (lit s : str) : bool :=
  match lit, s with
  | [], _ => true
  | c :: lit', x :: s' => Re.literal_matches c x && starts_ci lit' s'
  | _ :: _, [] => false
  end.

(** [lit] occurs somewhere in [s], the case of letters ignored. *)
Fixpoint occurs_ci (lit s : str) : bool :=
  starts_ci lit s
  || match s with
     | [] => false
     | _ :: s' => occurs_ci lit s'
     end.

(** The words of a pattern, with the groups they fill in. *)
Inductive word_of : Re.regex -> str -> Re.captures -> Re.captures -> Prop :=
| word_nil caps : word_of [] [] caps caps
| word_literal c x p w caps caps' :
    Re.literal_matches c x = true ->
    word_of p w caps caps' ->
    word_of (Re.Literal c :: p) (x :: w) caps caps'
| word_star c run p w caps caps' :
    ~ In c run ->
    word_of p w caps caps' ->
    word_of (Re.NotLiteralStar c :: p) (run ++ w) caps caps'
| word_capture g c run p w caps caps' :
    ~ In c run ->
    word_of p w (Re.set_group g run caps) caps' ->
    word_of (Re.CaptureNotLiteralStar g c :: p) (run ++ w) caps caps'.

(** The words of the forward pattern: an opening tag that holds the text
    [Type="t"] and after it the text [Reference="true"], then [x], then
    the closing tag. *)
Definition forward_shape (w t x : str) : Prop :=
  exists o a1 ty q a2 rf a3 gt cl,
    w = o ++ a1 ++ ty ++ t ++ q ++ a2 ++ rf ++ a3 ++ gt ++ x ++ cl
    /\ ci_eq (py "<Object") o /\ ~ In 62%N a1
    /\ ci_eq (xml "Type='") ty /\ ~ In dquote t /\ ci_eq (xml "'") q
    /\ ~ In 62%N a2
    /\ ci_eq (xml "Reference='true'") rf /\ ~ In 62%N a3
    /\ ci_eq (py ">") gt /\ ~ In 60%N x
    /\ ci_eq (py "</Object>") cl.

(** The words of the reverse pattern: the same with the two texts in the
    other order. *)
Definition reverse_shape (w t x : str) : Prop :=
  exists o a1 rf a2 ty q a3 gt cl,
    w = o ++ a1 ++ rf ++ a2 ++ ty ++ t ++ q ++ a3 ++ gt ++ x ++ cl
    /\ ci_eq (py "<Object") o /\ ~ In 62%N a1
    /\ ci_eq (xml "Reference='true'") rf /\ ~ In 62%N a2
    /\ ci_eq (xml "Type='") ty /\ ~ In dquote t /\ ci_eq (xml "'") q
    /\ ~ In 62%N a3
    /\ ci_eq (py ">") gt /\ ~ In 60%N x
    /\ ci_eq (py "</Object>") cl.

(** ** Further notions used by the properties of the whole program *)

(** The same record under another path. *)
Definition relabel (file_path : str) (r : ReferenceObject) : ReferenceObject :=
  new_record (object_name r) (object_type r) file_path.

(** Extracted from the file at [file_path]. *)
Definition at_path (file_path : str) (r : ReferenceObject) : Prop :=
  pkg_file_path r = file_path.

(** [s] lies inside [content]. *)
Definition substring (s content : str) : Prop :=
  exists before after, content = before ++ s ++ after.

(** Nothing but white space, or nothing at all. *)
Definition blank (s : str) : bool := forallb isspace s.

(** The element as the comment of the forward pattern writes it. *)
Definition forward_element (t x : str) : str :=
  xml "<Object Type='" ++ t ++ xml "' Reference='true'>" ++ x
  ++ py "</Object>".

(** The same element with its two attributes in the other order. *)
Definition reverse_element (t x : str) : str :=
  xml "<Object Reference='true' Type='" ++ t ++ xml "'>" ++ x
  ++ py "</Object>".

(** No character of [lit] is matched by [c]. *)
Definition avoids (lit : str) (c : char) : bool :=
  forallb (fun l => negb (Re.literal_matches l c)) lit.

(** No match of [lit] starts inside the closed text [C], whatever comes
    after it: at every position [lit] and the rest of [C] disagree. *)
Fixpoint clear_of (lit C : str) : bool :=
  match C with
  | [] => true
  | _ :: C' =>
      negb (starts_ci (firstn (List.length C) lit) C) && clear_of lit C'
  end.

(** The two patterns with their items one by one. *)
Definition pattern_items : Re.regex :=
  Re.literals (py "<Object")
  ++ Re.NotLiteralStar 62%N
     :: Re.literals (xml "Type='")
  ++ Re.CaptureNotLiteralStar Re.G1 dquote :: Re.Literal dquote
     :: Re.NotLiteralStar 62%N
     :: Re.literals (xml "Reference='true'")
  ++ Re.NotLiteralStar 62%N :: Re.Literal 62%N
     :: Re.CaptureNotLiteralStar Re.G2 60%N :: Re.Literal 60%N
     :: Re.literals (py "/Object>").

Definition pattern_reverse_items : Re.regex :=
  Re.literals (py "<Object")
  ++ Re.NotLiteralStar 62%N
     :: Re.literals (xml "Reference='true'")
  ++ Re.NotLiteralStar 62%N
     :: Re.literals (xml "Type='")
  ++ Re.CaptureNotLiteralStar Re.G1 dquote :: Re.Literal dquote
     :: Re.NotLiteralStar 62%N :: Re.Literal 62%N
     :: Re.CaptureNotLiteralStar Re.G2 60%N :: Re.Literal 60%N
     :: Re.literals (py "/Object>").

(** The length of the shortest text that gives a record on the fallback
    path: the forty literal characters of a pattern and one character of
    name. *)
Definition shortest_source : nat := 41.

(** More concrete files. *)
Module Sample.

(** The shortest source of a fallback record; its type is empty. *)
Definition shortest : str := xml "<ObjectType=''Reference='true'>X</Object>".

(** A qualifying element whose text is white space only. *)
Definition blank_content : str :=
  xml "<Objects><Object Type='File' Reference='true'>   </Object></Objects>".

(** Malformed content whose only match has blank text. *)
Definition blank_malformed : str :=
  xml "<Root><Object Type='A' Reference='true'>  </Object>".

Definition blank_root : Element :=
  mkElement (py "Objects") [] None
    [mkElement (py "Object")
       [(py "Type", py "File"); (py "Reference", py "true")]
       (Some (py "   ")) []].

(** The project of [Demo] with another text in the file that is no
    [.pkg] file. *)
Definition other_read (path : str) : exception + str :=
  if str_eqb path (py "proj/notes.txt") then inr (py "changed")
  else Demo.project_read path.

(** Malformed content that only the reverse pattern matches, twice. *)
Definition twice_reverse : str :=
  xml ("<Root><Object Reference='true' Type='A'>X</Object>"
       ++ "<Object Reference='true' Type='A'>X</Object>").

End Sample.

(** * The program when printing and scanning can raise

    The definitions above take [print] to succeed and [os.scandir] at the
    root to fail with [OSError] only.  Neither is guarded in the source:
    the [print] of line 94 stands inside the handler, and the [os.walk]
    of line 112 lets through whatever is no [OSError].  Here both can
    raise, and a call either returns or raises; either way it has printed
    some lines. *)

Inductive outcome (A : Type) :=
| Returned (value : A) (printed : list str)
| Raised (e : exception) (printed : list str).
Arguments Returned {A} value printed.
Arguments Raised {A} e printed.

(** What [os.scandir(path)] does at the root of the walk: it lists the
    directory, raises [OSError] (nothing there, not a directory, not
    permitted), or raises another exception ([ValueError] for a path with
    a NUL character in it), which [os.walk] does not catch. *)
Inductive scandir_outcome :=
| Listing (entries : list dirent)
| ScandirOSError
| ScandirRaises (e : exception).

Definition listing_of (o : scandir_outcome) : option (list dirent) :=
  match o with
  | Listing entries => Some entries
  | ScandirOSError | ScandirRaises _ => None
  end.

Module Full.

Section Program.

(** [print_raises line] is [None] when [print(line)] writes the line, and
    [Some e] when it raises [e] and writes nothing (a standard output
    whose encoding cannot encode the line raises [UnicodeEncodeError]). *)
Variable read_text : str -> exception + str.
Variable ET_fromstring : str -> exception + Element.
Variable print_raises : str -> option exception.
Variable os_scandir : str -> scandir_outcome.
Variable os_path_join : str -> str -> str.

(** [process_pkg_for_references(file_path)] (source lines 25-96): the
    body of the [try] as before; the handler prints, and when [print]
    raises the function raises instead of returning [results]. *)
Definition process_pkg_for_references (file_path : str)
    : outcome (list ReferenceObject) :=
  match try_body read_text ET_fromstring file_path [] with
  | (inr _, results) => Returned results []
  | (inl e, results) =>
      match print_raises (warning file_path e) with
      | None => Returned results [warning file_path e]
      | Some e' => Raised e' []
      end
  end.

(** The inner loop [for file in files] (source lines 113-117); an
    exception out of [process_pkg_for_references] ends it. *)
Fixpoint scan_files (root : str) (files : list str)
    (all_references : list ReferenceObject) (printed : list str)
    : outcome (list ReferenceObject) :=
  match files with
  | [] => Returned all_references printed
  | file :: files' =>
      if endswith file (py ".pkg") then
        let file_path := os_path_join root file in
        match process_pkg_for_references file_path with
        | Returned references lines =>
            scan_files root files' (all_references ++ references)
                       (printed ++ lines)
        | Raised e lines => Raised e (printed ++ lines)
        end
      else scan_files root files' all_references printed
  end.

(** The outer loop over the triples of the walk (source line 112). *)
Fixpoint walk_loop (triples : list walk_triple)
    (all_references : list ReferenceObject) (printed : list str)
    : outcome (list ReferenceObject) :=
  match triples with
  | [] => Returned all_references printed
  | (root, _, files) :: triples' =>
      match scan_files root files all_references printed with
      | Returned all_references' printed' =>
          walk_loop triples' all_references' printed'
      | Raised e printed' => Raised e printed'
      end
  end.

(** [check_reference_objects(project_path)] (source lines 109-119). *)
Definition check_reference_objects (project_path : str)
    : outcome (list ReferenceObject) :=
  match os_scandir project_path with
  | ScandirRaises e => Raised e []
  | ScandirOSError => walk_loop [] [] []
  | Listing entries =>
      walk_loop (walk_listing os_path_join project_path entries) [] []
  end.

(** The extractor run on a list of paths one after the other, until one
    call raises. *)
Fixpoint run_paths (paths : list str)
    (all_references : list ReferenceObject) (printed : list str)
    : outcome (list ReferenceObject) :=
  match paths with
  | [] => Returned all_references printed
  | path :: paths' =>
      match process_pkg_for_references path with
      | Returned references lines =>
          run_paths paths' (all_references ++ references) (printed ++ lines)
      | Raised e lines => Raised e (printed ++ lines)
      end
  end.

End Program.

End Full.

(** Worlds in which printing or scanning raises. *)
Module Faulty.

(** A standard output encoded in Latin-1 with strict errors. *)
Definition latin1_stdout (line : str) : option exception :=
  if existsb (fun c => (255 <? c)%N) line
  then Some (OtherException
               (py "'latin-1' codec can't encode character: ordinal not in range(256)"))
  else None.

(** A standard output that can encode every line. *)
Definition utf8_stdout (line : str) : option exception := None.

(** A file name with a Cyrillic capital letter (U+042F) in it. *)
Definition cyrillic_name : str := 1071%N :: py ".pkg".

Definition good_content : str :=
  xml "<Objects><Object Type='File' Reference='true'>kept.st</Object></Objects>".

(** A project with a [.pkg] file that cannot be read and, after it, one
    that holds a reference. *)
Definition os_scandir (path : str) : scandir_outcome :=
  if existsb (N.eqb 0) path
  then ScandirRaises (OtherException (py "embedded null character in path"))
  else if str_eqb path (py "proj")
  then Listing [File cyrillic_name; File (py "z.pkg")]
  else if str_eqb path (py "docs")
  then Listing [File (py "readme.txt");
                Directory (py "img") false (Some [File (py "logo.png")])]
  else ScandirOSError.

Definition read_text (path : str) : exception + str :=
  if str_eqb path (py "proj/z.pkg") then inr good_content
  else inl (OSError (py "[Errno 13] Permission denied")).

(** A root path that names nothing: it holds a NUL character. *)
Definition nul_path : str := py "a" ++ 0%N :: py "b".

End Faulty.

(** * Properties *)

(** ** Text *)

Lemma str_eqb_eq (a b : str) : str_eqb a b = true <-> a = b.
Proof.
  revert b; induction a as [|x a IH]; intros [|y b]; simpl;
    try (split; [discriminate | discriminate]); [tauto|].
  rewrite andb_true_iff, N.eqb_eq, IH.
  split; [intros [-> ->]; reflexivity | intros [= -> ->]; auto].
Qed.

Lemma str_eqb_refl (a : str) : str_eqb a a = true.
Proof. apply str_eqb_eq; reflexivity. Qed.

Lemma truthy_true (s : str) : truthy s = true <-> s <> [].
Proof. destruct s; simpl; split; congruence. Qed.

Lemma lstrip_head (s : str) :
  match lstrip s with
  | c :: _ => isspace c = false
  | [] => True
  end.
Proof.
  induction s as [|c s IH]; simpl; [exact I|].
  destruct (isspace c) eqn:E; [exact IH | exact E].
Qed.

Lemma lstrip_fixed (s : str) :
  match s with c :: _ => isspace c = false | [] => True end -> lstrip s = s.
Proof. destruct s as [|c s]; simpl; [reflexivity | intros ->; reflexivity]. Qed.

(** What [lstrip] removes is a run of white space. *)
Lemma lstrip_split (s : str) :
  exists ws, s = ws ++ lstrip s /\ forallb isspace ws = true.
Proof.
  induction s as [|c s [ws [E F]]]; simpl.
  - exists []; auto.
  - destruct (isspace c) eqn:C.
    + exists (c :: ws); simpl; rewrite C, F; split; [f_equal; exact E | reflexivity].
    + exists []; auto.
Qed.

(** [lstrip] leaves the last character of a string it does not empty. *)
Lemma lstrip_last (s : str) (d : char) :
  lstrip s <> [] -> last (lstrip s) d = last s d.
Proof.
  induction s as [|c s IH]; simpl; [congruence|].
  destruct (isspace c) eqn:C; [|reflexivity].
  intros H. rewrite (IH H).
  destruct s; [simpl in H; congruence | reflexivity].
Qed.

Lemma last_rev_head (s : str) (d : char) : last (rev s) d = hd d s.
Proof.
  destruct s as [|c s]; [reflexivity|]. simpl. apply last_last.
Qed.

Lemma hd_rev_last (s : str) (d : char) : hd d (rev s) = last s d.
Proof. rewrite <- (rev_involutive s) at 2. symmetry; apply last_rev_head. Qed.

Lemma rev_nil_iff (s : str) : rev s = [] <-> s = [].
Proof.
  split; [|intros ->; reflexivity].
  intros H. apply (f_equal (@rev char)) in H. rewrite rev_involutive in H. exact H.
Qed.

(** A stripped string that is not empty starts and ends with characters
    that are not white space. *)
Lemma strip_ends (s : str) (d : char) :
  strip s <> [] ->
  isspace (hd d (strip s)) = false /\ isspace (last (strip s) d) = false.
Proof.
  unfold strip, rstrip. intros H.
  assert (Hl : lstrip (rev (lstrip s)) <> []).
  { intros E. apply H. rewrite E. reflexivity. }
  split.
  - rewrite <- last_rev_head, rev_involutive, (lstrip_last _ d Hl), last_rev_head.
    pose proof (lstrip_head s) as Hh.
    destruct (lstrip s) as [|c t]; [simpl in Hl; congruence | exact Hh].
  - rewrite <- hd_rev_last, rev_involutive.
    pose proof (lstrip_head (rev (lstrip s))) as Hh.
    destruct (lstrip (rev (lstrip s))) as [|c t]; [congruence | exact Hh].
Qed.

(** Stripping twice changes nothing more. *)
Lemma strip_idempotent (s : str) : strip (strip s) = strip s.
Proof.
  destruct (list_eq_dec N.eq_dec (strip s) []) as [E|NE].
  - rewrite E. reflexivity.
  - destruct (strip_ends s 0%N NE) as [Hh Hl].
    unfold strip at 1, rstrip.
    rewrite (lstrip_fixed (strip s)).
    + rewrite lstrip_fixed; [apply rev_involutive|].
      rewrite <- (hd_rev_last (strip s) 0%N) in Hl.
      destruct (rev (strip s)); [exact I | exact Hl].
    + destruct (strip s); [exact I | exact Hh].
Qed.

(** A string whose stripped form is not empty has a character that is
    not white space. *)
Lemma strip_not_blank (s : str) :
  strip s <> [] -> exists c, In c s /\ isspace c = false.
Proof.
  intros H. destruct (strip_ends s 0%N H) as [Hh _].
  exists (hd 0%N (strip s)). split; [|exact Hh].
  assert (Hin : In (hd 0%N (strip s)) (strip s))
    by (destruct (strip s); [congruence | left; reflexivity]).
  revert Hin. generalize (hd 0%N (strip s)). intros c.
  unfold strip, rstrip. rewrite <- in_rev.
  destruct (lstrip_split (rev (lstrip s))) as [w1 [E1 _]].
  destruct (lstrip_split s) as [w2 [E2 _]].
  intros Hc.
  rewrite E2. apply in_or_app; right.
  apply in_rev. rewrite E1. apply in_or_app; right. exact Hc.
Qed.

(** ** The models at work *)

(** The matcher ignores the case of letters, takes the rightmost [Type]
    that still leaves room for [Reference], and resumes after a match. *)
Example findall_forward :
  Re.findall pattern
    (xml ("<object type='Lib' x='1' REFERENCE='TRUE'  > bar.lib </OBJECT>"
          ++ "<Object Type='a' Type='b' Reference='true'>Z</Object>"))
  = [(py "Lib", py " bar.lib "); (py "b", py "Z")].
Proof. vm_compute. reflexivity. Qed.

(** The reverse pattern takes the last [Type] of the tag. *)
Example findall_reverse :
  Re.findall pattern_reverse
    (xml "<Object Reference='true' Type='a' Type='b'>Z</Object>")
  = [(py "b", py "Z")].
Proof. vm_compute. reflexivity. Qed.

(** A quoted value may hold the character that ends a tag. *)
Example findall_value_with_ket :
  Re.findall pattern (xml "<Object Type='A>' Reference='true'>Y</Object>")
  = [(py "A>", py "Y")].
Proof. vm_compute. reflexivity. Qed.

Example strip_both_ends :
  strip (py "  a b ") = py "a b" /\ strip (py "   ") = [].
Proof. split; reflexivity. Qed.

(** The reference parser: text after the last child is not kept, white
    space around the root is allowed, a second root is not. *)
Example parse_nested :
  XmlSubset.parse (xml " <a x = '1'><b/>tail<c>t</c></a > ")
  = XmlSubset.Good
      (mkElement (py "a") [(py "x", py "1")] None
         [mkElement (py "b") [] None [];
          mkElement (py "c") [] (Some (py "t")) []]).
Proof. vm_compute. reflexivity. Qed.

Example parse_rejects :
  XmlSubset.parse (xml "<a/><b/>") = XmlSubset.NotWellFormed
  /\ XmlSubset.parse (xml "<a x='1' x='2'/>") = XmlSubset.NotWellFormed
  /\ XmlSubset.parse (xml "<a><b></a></b>") = XmlSubset.NotWellFormed
  /\ XmlSubset.parse [] = XmlSubset.NotWellFormed
  /\ XmlSubset.parse (xml "<a>&amp;</a>") = XmlSubset.OutsideSubset.
Proof. repeat split; vm_compute; reflexivity. Qed.

Example posix_join_cases :
  posix_join (py "proj") (py "a.pkg") = py "proj/a.pkg"
  /\ posix_join (py "proj/") (py "a.pkg") = py "proj/a.pkg"
  /\ posix_join [] (py "a.pkg") = py "a.pkg".
Proof. repeat split; reflexivity. Qed.

(** ** Loops that only append *)

Lemma for_each_appends {A} (g : A -> list ReferenceObject)
    (body : A -> Body.M unit) (xs : list A) :
  (forall x results, body x results = (inr tt, results ++ g x)) ->
  forall results,
    Body.for_each xs body results = (inr tt, results ++ flat_map g xs).
Proof.
  intros Hbody. induction xs as [|x xs IH]; intros results; simpl.
  - unfold Body.ret. rewrite app_nil_r. reflexivity.
  - unfold Body.bind. rewrite Hbody, IH, app_assoc. reflexivity.
Qed.

Lemma flat_map_if_singleton {A B} (p : A -> bool) (f : A -> B) (l : list A) :
  flat_map (fun x => if p x then [f x] else []) l = map f (filter p l).
Proof.
  induction l as [|x l IH]; simpl; [reflexivity|].
  destruct (p x); simpl; rewrite IH; reflexivity.
Qed.

Lemma strip_nil : strip [] = [].
Proof. reflexivity. Qed.

(** ** The structured pass *)

Lemma structured_step (file_path : str) (e : Element)
    (results : list ReferenceObject) :
  (if endswith (tag e) (py "Object") || str_eqb (tag e) (py "Object") then
     match get e (py "Reference") with
     | Some v =>
         if str_eqb v (py "true") then
           if truthy (match text e with
                      | Some t => if truthy t then strip t else []
                      | None => []
                      end)
           then Body.append
                  (new_record (match text e with
                               | Some t => if truthy t then strip t else []
                               | None => []
                               end)
                     (get_default e (py "Type") (py "Unknown")) file_path)
           else pass
         else pass
     | None => pass
     end
   else pass) results
  = (inr tt,
     results ++ (if contributes e then [record_of file_path e] else [])).
Proof.
  assert (Htxt : match text e with
                 | Some t => if truthy t then strip t else []
                 | None => []
                 end = trimmed_text e).
  { unfold trimmed_text. destruct (text e) as [[|c t]|]; reflexivity. }
  rewrite Htxt.
  unfold contributes, is_object_tag, reference_is_true, record_of, get_default.
  rewrite (orb_comm (endswith _ _)).
  destruct (str_eqb (tag e) (py "Object") || endswith (tag e) (py "Object"));
    simpl; [|unfold pass, Body.ret; rewrite app_nil_r; reflexivity].
  destruct (get e (py "Reference")) as [v|];
    simpl; [|unfold pass, Body.ret; rewrite app_nil_r; reflexivity].
  destruct (str_eqb v (py "true"));
    simpl; [|unfold pass, Body.ret; rewrite app_nil_r; reflexivity].
  destruct (truthy (trimmed_text e));
    [reflexivity | unfold pass, Body.ret; rewrite app_nil_r; reflexivity].
Qed.

Lemma structured_pass_appends (file_path : str) (root : Element)
    (results : list ReferenceObject) :
  structured_pass file_path root results
  = (inr tt, results ++ structured_records file_path root).
Proof.
  unfold structured_pass, structured_records.
  rewrite <- flat_map_if_singleton.
  apply for_each_appends. intros e r. apply structured_step.
Qed.

(** ** The fallback pass *)

Lemma for_each_folds {A} (step : list ReferenceObject -> A -> list ReferenceObject)
    (body : A -> Body.M unit) (xs : list A) :
  (forall x results, body x results = (inr tt, step results x)) ->
  forall results,
    Body.for_each xs body results = (inr tt, fold_left step xs results).
Proof.
  intros Hbody. induction xs as [|x xs IH]; intros results; simpl.
  - reflexivity.
  - unfold Body.bind. rewrite Hbody, IH. reflexivity.
Qed.

Lemma fold_left_flat_map {A} (f : A -> list ReferenceObject)
    (xs : list A) (acc : list ReferenceObject) :
  fold_left add_unless_present (flat_map f xs) acc
  = fold_left (fun a x => fold_left add_unless_present (f x) a) xs acc.
Proof.
  revert acc; induction xs as [|x xs IH]; intros acc; simpl; [reflexivity|].
  rewrite fold_left_app. apply IH.
Qed.

Lemma fallback_pass_result (file_path content : str)
    (results : list ReferenceObject) :
  fallback_pass file_path content results
  = (inr tt,
     fold_left add_unless_present (reverse_records file_path content)
               (results ++ forward_records file_path content)).
Proof.
  unfold fallback_pass, Body.bind.
  rewrite (for_each_appends (match_record file_path)).
  2:{ intros [t x] r. unfold match_record. simpl.
      destruct (truthy (strip x)); [reflexivity|].
      unfold pass, Body.ret. rewrite app_nil_r. reflexivity. }
  fold (forward_records file_path content).
  unfold reverse_records. rewrite fold_left_flat_map.
  apply for_each_folds.
  intros [t x] r. unfold match_record. simpl.
  destruct (truthy (strip x)); [|reflexivity].
  unfold Body.bind, Body.read_results. simpl.
  unfold add_unless_present, present. simpl.
  destruct (existsb _ r); reflexivity.
Qed.

(** ** The extractor, case by case *)

Section ExtractorFacts.

Variable read_text : str -> exception + str.
Variable ET_fromstring : str -> exception + Element.

Let process := process_pkg_for_references read_text ET_fromstring.

Lemma process_read_error (file_path : str) (e : exception) :
  read_text file_path = inl e ->
  process file_path = ([], [warning file_path e]).
Proof.
  intros H. unfold process, process_pkg_for_references, try_body, Body.bind,
    Body.call. rewrite H. reflexivity.
Qed.

Lemma process_parsed (file_path content : str) (root : Element) :
  read_text file_path = inr content ->
  ET_fromstring content = inr root ->
  process file_path = (structured_records file_path root, []).
Proof.
  intros H1 H2. unfold process, process_pkg_for_references, try_body,
    Body.bind, Body.call, Body.try_except_ParseError.
  rewrite H1, H2, structured_pass_appends. reflexivity.
Qed.

Lemma process_parse_error (file_path content msg : str) :
  read_text file_path = inr content ->
  ET_fromstring content = inl (ParseError msg) ->
  process file_path = (fallback_records file_path content, []).
Proof.
  intros H1 H2. unfold process, process_pkg_for_references, try_body,
    Body.bind, Body.call, Body.try_except_ParseError.
  rewrite H1, H2, fallback_pass_result. reflexivity.
Qed.

Lemma process_parser_raises (file_path content : str) (e : exception) :
  read_text file_path = inr content ->
  ET_fromstring content = inl e ->
  (forall msg, e <> ParseError msg) ->
  process file_path = ([], [warning file_path e]).
Proof.
  intros H1 H2 Hne. unfold process, process_pkg_for_references, try_body,
    Body.bind, Body.call, Body.try_except_ParseError.
  rewrite H1, H2.
  destruct e as [m|m|m]; [destruct (Hne m); reflexivity | reflexivity..].
Qed.

End ExtractorFacts.

(** ** Every record keeps the invariant *)

Lemma new_record_invariant (file_path x t : str) :
  truthy (strip x) = true ->
  record_invariant file_path (new_record (strip x) t file_path).
Proof.
  intros H. apply truthy_true in H.
  unfold record_invariant; simpl.
  repeat split; auto using strip_idempotent.
  destruct (strip_not_blank x H) as [c [_ Hc]].
  destruct (strip_ends x 0%N H) as [Hh _].
  exists (hd 0%N (strip x)). split; [|exact Hh].
  destruct (strip x); [congruence | left; reflexivity].
Qed.

Lemma structured_records_invariant (file_path : str) (root : Element) :
  Forall (record_invariant file_path) (structured_records file_path root).
Proof.
  unfold structured_records. apply Forall_forall. intros r Hr.
  apply in_map_iff in Hr. destruct Hr as [e [<- He]].
  apply filter_In in He. destruct He as [_ He].
  unfold contributes in He. apply andb_true_iff in He. destruct He as [_ He].
  unfold record_of, trimmed_text in *.
  destruct (text e) as [t|]; [|discriminate].
  apply new_record_invariant. exact He.
Qed.

Lemma match_record_invariant (file_path : str) (ms : list (str * str)) :
  Forall (record_invariant file_path) (flat_map (match_record file_path) ms).
Proof.
  apply Forall_forall. intros r Hr.
  apply in_flat_map in Hr. destruct Hr as [[t x] [_ Hr]].
  unfold match_record in Hr. simpl in Hr.
  destruct (truthy (strip x)) eqn:E; [|contradiction].
  destruct Hr as [<-|[]]. apply new_record_invariant. exact E.
Qed.

Lemma add_unless_present_Forall (P : ReferenceObject -> Prop)
    (new acc : list ReferenceObject) :
  Forall P acc -> Forall P new ->
  Forall P (fold_left add_unless_present new acc).
Proof.
  revert acc. induction new as [|r new IH]; intros acc Hacc Hnew; simpl.
  - exact Hacc.
  - inversion Hnew; subst. apply IH; [|assumption].
    unfold add_unless_present. destruct (present r acc); [assumption|].
    apply Forall_app; split; [assumption | constructor; auto].
Qed.

Lemma fallback_records_invariant (file_path content : str) :
  Forall (record_invariant file_path) (fallback_records file_path content).
Proof.
  unfold fallback_records.
  apply add_unless_present_Forall; apply match_record_invariant.
Qed.

(** The extractor has four outcomes and no other. *)
Lemma process_outcomes (read_text : str -> exception + str)
    (ET_fromstring : str -> exception + Element) (file_path : str) :
  let out := process_pkg_for_references read_text ET_fromstring file_path in
  (exists e, read_text file_path = inl e /\ out = ([], [warning file_path e]))
  \/ (exists content root,
        read_text file_path = inr content
        /\ ET_fromstring content = inr root
        /\ out = (structured_records file_path root, []))
  \/ (exists content msg,
        read_text file_path = inr content
        /\ ET_fromstring content = inl (ParseError msg)
        /\ out = (fallback_records file_path content, []))
  \/ (exists content e,
        read_text file_path = inr content
        /\ ET_fromstring content = inl e
        /\ (forall msg, e <> ParseError msg)
        /\ out = ([], [warning file_path e])).
Proof.
  intros out; subst out.
  destruct (read_text file_path) as [e|content] eqn:Hr.
  - left. exists e. split; [reflexivity|].
    apply process_read_error; assumption.
  - right. destruct (ET_fromstring content) as [e|root] eqn:Hp.
    + destruct e as [m|m|m].
      * right; left. exists content, m. repeat split; auto.
        eapply process_parse_error; eassumption.
      * right; right. exists content, (OSError m). repeat split; auto.
        -- intros msg; discriminate.
        -- eapply process_parser_raises; eauto. intros msg; discriminate.
      * right; right. exists content, (OtherException m). repeat split; auto.
        -- intros msg; discriminate.
        -- eapply process_parser_raises; eauto. intros msg; discriminate.
    + left. exists content, root. repeat split; auto.
      eapply process_parsed; eassumption.
Qed.

(** ** The walker *)

Section WalkerFacts.

Variable read_text : str -> exception + str.
Variable ET_fromstring : str -> exception + Element.
Variable scandir : str -> option (list dirent).
Variable os_path_join : str -> str -> str.

Let process := process_pkg_for_references read_text ET_fromstring.

Lemma scan_files_concat (root : str) (files : list str)
    (acc : list ReferenceObject * list str) :
  scan_files read_text ET_fromstring os_path_join root files acc
  = (fst acc ++ flat_map (fun p => fst (process p))
                  (map (os_path_join root) (filter is_pkg files)),
     snd acc ++ flat_map (fun p => snd (process p))
                  (map (os_path_join root) (filter is_pkg files))).
Proof.
  unfold scan_files. revert acc.
  induction files as [|f files IH]; intros [refs printed]; simpl.
  - rewrite !app_nil_r. reflexivity.
  - fold (is_pkg f). destruct (is_pkg f); simpl.
    + fold process.
      destruct (process (os_path_join root f)) as [r l] eqn:E.
      rewrite IH. simpl. rewrite !app_assoc. reflexivity.
    + apply IH.
Qed.

Lemma walk_fold_concat (triples : list walk_triple)
    (acc : list ReferenceObject * list str) :
  fold_left (fun acc '(root, _, files) =>
               scan_files read_text ET_fromstring os_path_join root files acc)
            triples acc
  = (fst acc ++ flat_map (fun p => fst (process p))
       (flat_map (fun t : walk_triple =>
                    map (os_path_join (fst (fst t))) (filter is_pkg (snd t)))
                 triples),
     snd acc ++ flat_map (fun p => snd (process p))
       (flat_map (fun t : walk_triple =>
                    map (os_path_join (fst (fst t))) (filter is_pkg (snd t)))
                 triples)).
Proof.
  revert acc. induction triples as [|[[root dirs] files] ts IH];
    intros acc; simpl.
  - rewrite !app_nil_r. destruct acc; reflexivity.
  - rewrite IH, scan_files_concat. simpl.
    rewrite !flat_map_app, !app_assoc. reflexivity.
Qed.

(** The walker returns, file after file in the order of the walk, what
    the extractor returns, and prints what the extractor prints. *)
Lemma check_reference_objects_concat (project_path : str) :
  check_reference_objects read_text ET_fromstring scandir os_path_join
    project_path
  = (flat_map (fun p => fst (process p))
       (walked_pkg_paths scandir os_path_join project_path),
     flat_map (fun p => snd (process p))
       (walked_pkg_paths scandir os_path_join project_path)).
Proof.
  unfold check_reference_objects. rewrite walk_fold_concat. reflexivity.
Qed.

End WalkerFacts.

(** ** Where a structured record comes from *)

(** Every record of the structured path is the record of an element of
    the tree whose tag is or ends in [Object], whose [Reference] is
    exactly [true] and whose trimmed text is not empty. *)
Lemma structured_record_origin (file_path : str) (root : Element)
    (r : ReferenceObject) :
  In r (structured_records file_path root) ->
  exists e,
    In e (iter root)
    /\ is_object_tag e = true
    /\ get e (py "Reference") = Some (py "true")
    /\ trimmed_text e <> []
    /\ r = record_of file_path e.
Proof.
  unfold structured_records. intros H.
  apply in_map_iff in H. destruct H as [e [<- He]].
  apply filter_In in He. destruct He as [Hin He].
  unfold contributes in He.
  apply andb_true_iff in He. destruct He as [He Ht].
  apply andb_true_iff in He. destruct He as [Htag Href].
  exists e. repeat split; auto.
  - unfold reference_is_true in Href.
    destruct (get e (py "Reference")) as [v|]; [|discriminate].
    apply str_eqb_eq in Href. subst. reflexivity.
  - apply truthy_true. exact Ht.
Qed.

(** [True] is not [true]. *)
Example structured_reference_is_case_sensitive :
  process_pkg_for_references (Demo.single_file Demo.capital_true_content)
    XmlSubset.fromstring (py "demo.pkg") = ([], []).
Proof. vm_compute. reflexivity. Qed.

(** ** The walk reaches every file of the subtree once *)

Lemma dirent_nested_ind (P : dirent -> Prop) :
  (forall name, P (File name)) ->
  (forall name link, P (Directory name link None)) ->
  (forall name link entries,
      Forall P entries -> P (Directory name link (Some entries))) ->
  forall e, P e.
Proof.
  intros HF HN HS.
  fix IH 1. intros [name | name link [entries|]].
  - apply HF.
  - apply HS. induction entries as [|e es IHes]; constructor; [apply IH | exact IHes].
  - apply HN.
Qed.

Section WalkOrder.

Variable os_path_join : str -> str -> str.

Lemma pkg_paths_of_app (a b : list (str * str)) :
  pkg_paths_of os_path_join (a ++ b)
  = pkg_paths_of os_path_join a ++ pkg_paths_of os_path_join b.
Proof. unfold pkg_paths_of. rewrite filter_app, map_app. reflexivity. Qed.

Lemma pkg_paths_of_flat_map {A} (f : A -> list (str * str)) (l : list A) :
  pkg_paths_of os_path_join (flat_map f l)
  = flat_map (fun x => pkg_paths_of os_path_join (f x)) l.
Proof.
  induction l as [|x l IH]; simpl; [reflexivity|].
  rewrite pkg_paths_of_app, IH. reflexivity.
Qed.

(** Files first, then the subdirectories: a rearrangement of the entries
    taken one by one. *)
Lemma listing_paths_permutation (top : str) (entries : list dirent) :
  Forall (fun e => forall dir,
            is_dir e = true ->
            Permutation
              (flat_map (triple_paths os_path_join)
                        (walk_entry os_path_join dir e))
              (pkg_paths_of os_path_join (files_below os_path_join dir e)))
         entries ->
  Permutation
    (map (os_path_join top)
         (filter is_pkg
            (map dirent_name (filter (fun e => negb (is_dir e)) entries)))
     ++ flat_map (triple_paths os_path_join)
                 (flat_map (walk_entry os_path_join top) entries))
    (pkg_paths_of os_path_join
       (flat_map (files_below os_path_join top) entries)).
Proof.
  induction 1 as [|e es He Hes IH]; simpl; [constructor|].
  rewrite pkg_paths_of_app, flat_map_app.
  destruct e as [name | name link listing].
  - simpl. unfold pkg_paths_of at 1. simpl.
    destruct (is_pkg name); simpl; [constructor|]; exact IH.
  - simpl negb. cbv iota.
    specialize (He top eq_refl).
    rewrite app_assoc.
    eapply Permutation_trans;
      [apply Permutation_app_tail, Permutation_app_comm|].
    rewrite <- app_assoc.
    apply Permutation_app; [exact He | exact IH].
Qed.

Lemma walk_entry_permutation (e : dirent) :
  forall dir,
    is_dir e = true ->
    Permutation
      (flat_map (triple_paths os_path_join) (walk_entry os_path_join dir e))
      (pkg_paths_of os_path_join (files_below os_path_join dir e)).
Proof.
  induction e as [name | name link | name link entries IH]
    using dirent_nested_ind; intros dir Hd.
  - discriminate.
  - simpl. destruct link; constructor.
  - simpl. destruct link; [constructor|].
    simpl. unfold triple_paths at 1. simpl.
    apply listing_paths_permutation. exact IH.
Qed.

Lemma walked_paths_permutation (scandir : str -> option (list dirent))
    (top : str) :
  Permutation (walked_pkg_paths scandir os_path_join top)
              (subtree_pkg_paths scandir os_path_join top).
Proof.
  unfold walked_pkg_paths, subtree_pkg_paths, subtree_files, os_walk.
  destruct (scandir top) as [entries|]; [|constructor].
  unfold walk_listing. simpl.
  apply listing_paths_permutation.
  apply Forall_forall. intros e _. apply walk_entry_permutation.
Qed.

End WalkOrder.

(** * The claims *)

(** C1.  When the file reads and parses, the extractor returns one record
    for each qualifying element that is marked [Reference="true"] and has
    a name, in the order of [iter], with the trimmed text as name and the
    [Type] attribute as type; there are as many records as such elements,
    and nothing is printed.  On the example of the specification the
    reference parser gives the single record (foo.txt, File). *)
Theorem C1_structured_records :
  (forall read_text ET_fromstring file_path content root,
      read_text file_path = inr content ->
      ET_fromstring content = inr root ->
      let results :=
        fst (process_pkg_for_references read_text ET_fromstring file_path) in
      results = map (record_of file_path) (filter contributes (iter root))
      /\ List.length results = List.length (filter contributes (iter root))
      /\ (forall e t, get e (py "Type") = Some t ->
                      object_type (record_of file_path e) = t)
      /\ (forall e, object_name (record_of file_path e) = trimmed_text e))
  /\ (forall read_text file_path,
        read_text file_path = inr Demo.foo_content ->
        process_pkg_for_references read_text XmlSubset.fromstring file_path
        = ([new_record (py "foo.txt") (py "File") file_path], [])).
Proof.
  split.
  - intros read_text ET_fromstring file_path content root Hr Hp results.
    subst results.
    rewrite (process_parsed read_text ET_fromstring file_path content root Hr Hp). simpl.
    unfold structured_records. repeat split.
    + rewrite length_map. reflexivity.
    + intros e t Ht. unfold record_of. rewrite Ht. reflexivity.
  - intros read_text file_path Hr.
    assert (Hp : XmlSubset.fromstring Demo.foo_content = inr Demo.foo_root)
      by (vm_compute; reflexivity).
    rewrite (process_parsed read_text XmlSubset.fromstring file_path _ _ Hr Hp).
    reflexivity.
Qed.

Lemma C1_structured_records_witness :
  fst (process_pkg_for_references (Demo.single_file Demo.foo_content)
         XmlSubset.fromstring (py "demo.pkg"))
  = map (record_of (py "demo.pkg")) (filter contributes (iter Demo.foo_root))
  /\ process_pkg_for_references (Demo.single_file Demo.foo_content)
       XmlSubset.fromstring (py "demo.pkg")
     = ([new_record (py "foo.txt") (py "File") (py "demo.pkg")], []).
Proof.
  split.
  - apply (proj1 C1_structured_records (Demo.single_file Demo.foo_content)
             XmlSubset.fromstring (py "demo.pkg") Demo.foo_content
             Demo.foo_root); vm_compute; reflexivity.
  - apply (proj2 C1_structured_records (Demo.single_file Demo.foo_content)
             (py "demo.pkg")); reflexivity.
Defined.

(** C7.  On the structured path a qualifying element marked
    [Reference="true"], with a name and without a [Type] attribute, gives
    a record whose type is [Unknown]. *)
Theorem C7_unknown_type :
  forall read_text ET_fromstring file_path content root e,
    read_text file_path = inr content ->
    ET_fromstring content = inr root ->
    In e (iter root) ->
    is_object_tag e = true ->
    get e (py "Reference") = Some (py "true") ->
    get e (py "Type") = None ->
    trimmed_text e <> [] ->
    In (new_record (trimmed_text e) (py "Unknown") file_path)
       (fst (process_pkg_for_references read_text ET_fromstring file_path))
    /\ object_type (record_of file_path e) = py "Unknown".
Proof.
  intros read_text ET_fromstring file_path content root e Hr Hp Hin Htag
    Href Hty Hname.
  rewrite (process_parsed read_text ET_fromstring file_path content root Hr Hp).
  cbn [fst].
  assert (Hrec : record_of file_path e
                 = new_record (trimmed_text e) (py "Unknown") file_path)
    by (unfold record_of; rewrite Hty; reflexivity).
  split; [|rewrite Hrec; reflexivity].
  rewrite <- Hrec. unfold structured_records.
  apply in_map, filter_In. split; [assumption|].
  unfold contributes, reference_is_true. rewrite Htag, Href.
  apply truthy_true in Hname. rewrite Hname. reflexivity.
Qed.

Lemma C7_unknown_type_witness :
  In (new_record (py "Logical") (py "Unknown") (py "demo.pkg"))
     (fst (process_pkg_for_references (Demo.single_file Demo.untyped_content)
             XmlSubset.fromstring (py "demo.pkg")))
  /\ object_type (record_of (py "demo.pkg") Demo.untyped_element)
     = py "Unknown".
Proof.
  apply (C7_unknown_type (Demo.single_file Demo.untyped_content)
           XmlSubset.fromstring (py "demo.pkg") Demo.untyped_content
           Demo.untyped_root Demo.untyped_element).
  - reflexivity.
  - vm_compute; reflexivity.
  - simpl; right; left; reflexivity.
  - reflexivity.
  - reflexivity.
  - reflexivity.
  - vm_compute; discriminate.
Defined.

(** C9.  Every record the extractor returns, on either path, has a name
    that is not empty, holds a character that is not white space and is
    already trimmed; its path is the path of the file, and its line
    number is zero. *)
Theorem C9_record_invariant :
  forall read_text ET_fromstring file_path,
    Forall (record_invariant file_path)
      (fst (process_pkg_for_references read_text ET_fromstring file_path)).
Proof.
  intros read_text ET_fromstring file_path.
  destruct (process_outcomes read_text ET_fromstring file_path)
    as [[e [_ H]] | [[c [r [_ [_ H]]]] | [[c [m [_ [_ H]]]]
        | [c [e [_ [_ [_ H]]]]]]]]; rewrite H; simpl.
  - constructor.
  - apply structured_records_invariant.
  - apply fallback_records_invariant.
  - constructor.
Qed.


(** Without a listing at the root, or without a [.pkg] file in the
    subtree, the walk reaches no [.pkg] file. *)
Lemma nothing_walked (scandir : str -> option (list dirent))
    (os_path_join : str -> str -> str) (project_path : str) :
  scandir project_path = None
  \/ (forall dir file,
         In (dir, file) (subtree_files scandir os_path_join project_path) ->
         is_pkg file = false) ->
  walked_pkg_paths scandir os_path_join project_path = [].
Proof.
  intros H.
  apply Permutation_nil. symmetry.
  eapply Permutation_trans; [apply walked_paths_permutation|].
  unfold subtree_pkg_paths.
  destruct H as [H|H].
  - unfold subtree_files. rewrite H. constructor.
  - replace (filter (fun df => is_pkg (snd df))
               (subtree_files scandir os_path_join project_path))
      with (@nil (str * str)); [constructor|].
    symmetry.
    induction (subtree_files scandir os_path_join project_path)
      as [|[d f] l IH]; [reflexivity|].
    simpl. rewrite (H d f (or_introl eq_refl)).
    apply IH. intros d' f' Hin. apply (H d' f'). right. exact Hin.
Qed.

(** ** Merging the reverse matches *)

Lemma same_triple_eq (a b : ReferenceObject) :
  unnumbered a -> unnumbered b ->
  same_triple a (object_name b) (object_type b) (pkg_file_path b) = true
  <-> a = b.
Proof.
  unfold unnumbered, same_triple. destruct a, b; simpl. intros -> ->.
  rewrite !andb_true_iff, !str_eqb_eq.
  split; [intros [[-> ->] ->]; reflexivity | intros [= -> -> ->]; auto].
Qed.

Lemma present_In (r : ReferenceObject) (acc : list ReferenceObject) :
  unnumbered r -> Forall unnumbered acc ->
  present r acc = true <-> In r acc.
Proof.
  intros Hr Hacc. unfold present. rewrite existsb_exists. split.
  - intros [x [Hx Hs]].
    rewrite Forall_forall in Hacc.
    apply (same_triple_eq x r (Hacc x Hx) Hr) in Hs. subst. exact Hx.
  - intros Hin. exists r. split; [exact Hin|].
    apply same_triple_eq; auto.
Qed.

Lemma occurrences_app (r : ReferenceObject) (a b : list ReferenceObject) :
  occurrences r (a ++ b) = occurrences r a + occurrences r b.
Proof. apply count_occ_app. Qed.

Lemma occurrences_In (r : ReferenceObject) (l : list ReferenceObject) :
  In r l <-> 0 < occurrences r l.
Proof. apply count_occ_In. Qed.

(** A record already there keeps its number of occurrences; a record
    that is new and found by the reverse pattern comes in once. *)
Lemma merge_occurrences (new : list ReferenceObject) :
  forall acc r,
    Forall unnumbered acc -> Forall unnumbered new -> unnumbered r ->
    occurrences r (fold_left add_unless_present new acc)
    = if Nat.eqb (occurrences r acc) 0
      then (if in_dec ReferenceObject_eq_dec r new then 1 else 0)
      else occurrences r acc.
Proof.
  induction new as [|x new IH]; intros acc r Hacc Hnew Hr; simpl.
  - destruct (Nat.eqb_spec (occurrences r acc) 0); auto.
  - inversion Hnew as [|? ? Hx Hnew']; subst.
    unfold add_unless_present at 2.
    destruct (present x acc) eqn:P.
    + rewrite (IH acc r Hacc Hnew' Hr).
      destruct (Nat.eqb_spec (occurrences r acc) 0) as [Z|NZ]; [|reflexivity].
      apply (present_In x acc Hx Hacc) in P.
      destruct (ReferenceObject_eq_dec x r) as [->|Hne].
      * apply occurrences_In in P. lia.
      * destruct (in_dec ReferenceObject_eq_dec r new); reflexivity.
    + assert (Hx' : ~ In x acc).
      { intros Hin. apply (present_In x acc Hx Hacc) in Hin. congruence. }
      rewrite (IH (acc ++ [x]) r); auto.
      2:{ apply Forall_app; split; [assumption | constructor; auto]. }
      rewrite occurrences_app. unfold occurrences at 2 4. simpl.
      destruct (ReferenceObject_eq_dec x r) as [->|Hne].
      * assert (Z : occurrences r acc = 0).
        { destruct (occurrences r acc) eqn:E; [reflexivity|].
          exfalso. apply Hx', occurrences_In. lia. }
        rewrite Z. reflexivity.
      * rewrite Nat.add_0_r.
        destruct (Nat.eqb_spec (occurrences r acc) 0); [|reflexivity].
        destruct (in_dec ReferenceObject_eq_dec r new); reflexivity.
Qed.

Lemma match_record_unnumbered (file_path : str) (ms : list (str * str)) :
  Forall unnumbered (flat_map (match_record file_path) ms).
Proof.
  eapply Forall_impl; [|apply (match_record_invariant file_path ms)].
  intros r H. apply H.
Qed.

(** C3, as the program has it.  On the fallback path the forward matches
    are all kept, and a reverse match is added only when no equal record
    is there yet.  So a record found by the forward pattern occurs as
    often as the forward pattern found it, twice if it found it twice,
    and a record found by the reverse pattern alone occurs once.  One
    element in the forward order and an equal one in the reverse order
    give one record. *)
Theorem C3_reverse_matches_are_merged :
  (forall read_text ET_fromstring file_path content msg,
      read_text file_path = inr content ->
      ET_fromstring content = inl (ParseError msg) ->
      let results :=
        fst (process_pkg_for_references read_text ET_fromstring file_path) in
      let forward := forward_records file_path content in
      let reversed := reverse_records file_path content in
      results = fold_left add_unless_present reversed forward
      /\ (forall r, In r forward ->
                    occurrences r results = occurrences r forward)
      /\ (forall r, In r reversed -> ~ In r forward ->
                    occurrences r results = 1))
  /\ (forall read_text file_path,
        read_text file_path = inr Malformed.forward_then_reverse ->
        XmlSubset.fromstring Malformed.forward_then_reverse
        = Malformed.not_well_formed
        /\ process_pkg_for_references read_text XmlSubset.fromstring file_path
           = ([new_record (py "X") (py "A") file_path], [])).
Proof.
  split.
  - intros read_text ET_fromstring file_path content msg Hr Hp
      results forward reversed. subst results forward reversed.
    rewrite (process_parse_error read_text ET_fromstring file_path content
               msg Hr Hp). cbn [fst].
    split; [reflexivity|].
    unfold fallback_records.
    assert (Hf : Forall unnumbered (forward_records file_path content))
      by apply match_record_unnumbered.
    assert (Hv : Forall unnumbered (reverse_records file_path content))
      by apply match_record_unnumbered.
    split.
    + intros r Hin.
      rewrite merge_occurrences; auto.
      2:{ rewrite Forall_forall in Hf. apply Hf. exact Hin. }
      apply occurrences_In in Hin.
      destruct (Nat.eqb_spec (occurrences r (forward_records file_path content)) 0);
        [lia | reflexivity].
    + intros r Hin Hnot.
      rewrite merge_occurrences; auto.
      2:{ rewrite Forall_forall in Hv. apply Hv. exact Hin. }
      destruct (Nat.eqb_spec (occurrences r (forward_records file_path content)) 0)
        as [Z|NZ].
      * destruct (in_dec ReferenceObject_eq_dec r
                    (reverse_records file_path content)); [reflexivity|tauto].
      * exfalso. apply Hnot, occurrences_In. lia.
  - intros read_text file_path Hr.
    assert (Hp : XmlSubset.fromstring Malformed.forward_then_reverse
                 = Malformed.not_well_formed) by (vm_compute; reflexivity).
    split; [exact Hp|].
    rewrite (process_parse_error read_text XmlSubset.fromstring file_path
               Malformed.forward_then_reverse _ Hr Hp).
    assert (Hf : forward_records file_path Malformed.forward_then_reverse
                 = [new_record (py "X") (py "A") file_path])
      by (vm_compute; reflexivity).
    assert (Hv : reverse_records file_path Malformed.forward_then_reverse
                 = [new_record (py "X") (py "A") file_path])
      by (vm_compute; reflexivity).
    unfold fallback_records. rewrite Hf, Hv. simpl.
    unfold add_unless_present.
    replace (present _ _) with true; [reflexivity|].
    symmetry. apply present_In;
      [reflexivity | repeat constructor | left; reflexivity].
Qed.

Lemma C3_reverse_matches_are_merged_witness :
  occurrences (new_record (py "X") (py "A") (py "demo.pkg"))
    (fst (process_pkg_for_references
            (Demo.single_file Malformed.twice_both) XmlSubset.fromstring
            (py "demo.pkg")))
  = occurrences (new_record (py "X") (py "A") (py "demo.pkg"))
      (forward_records (py "demo.pkg") Malformed.twice_both)
  /\ process_pkg_for_references
       (Demo.single_file Malformed.forward_then_reverse)
       XmlSubset.fromstring (py "demo.pkg")
     = ([new_record (py "X") (py "A") (py "demo.pkg")], []).
Proof.
  split.
  - apply (proj1 C3_reverse_matches_are_merged
             (Demo.single_file Malformed.twice_both) XmlSubset.fromstring
             (py "demo.pkg") Malformed.twice_both (py "not well-formed")).
    + reflexivity.
    + vm_compute; reflexivity.
    + vm_compute; left; reflexivity.
  - apply (proj2 C3_reverse_matches_are_merged
             (Demo.single_file Malformed.forward_then_reverse)
             (py "demo.pkg")).
    reflexivity.
Defined.

(** C3, as the claim states it, fails.  In [twice_both] each of the two
    equal elements is matched by both patterns, the parser rejects the
    content, and the extractor returns the record twice.  Two copies of
    the element as the claim writes it, [twice_forward], give two records
    as well. *)
Lemma C3_counterexample :
  XmlSubset.fromstring Malformed.twice_both = Malformed.not_well_formed
  /\ Re.findall pattern Malformed.twice_both
     = [(py "A", py "X"); (py "A", py "X")]
  /\ Re.findall pattern_reverse Malformed.twice_both
     = [(py "A", py "X"); (py "A", py "X")]
  /\ fst (process_pkg_for_references
            (Demo.single_file Malformed.twice_both) XmlSubset.fromstring
            (py "demo.pkg"))
     = [new_record (py "X") (py "A") (py "demo.pkg");
        new_record (py "X") (py "A") (py "demo.pkg")]
  /\ occurrences (new_record (py "X") (py "A") (py "demo.pkg"))
       (fst (process_pkg_for_references
               (Demo.single_file Malformed.twice_both) XmlSubset.fromstring
               (py "demo.pkg")))
     <> 1
  /\ XmlSubset.fromstring Malformed.twice_forward = Malformed.not_well_formed
  /\ fst (process_pkg_for_references
            (Demo.single_file Malformed.twice_forward) XmlSubset.fromstring
            (py "demo.pkg"))
     = [new_record (py "X") (py "A") (py "demo.pkg");
        new_record (py "X") (py "A") (py "demo.pkg")].
Proof.
  repeat split; try (vm_compute; reflexivity).
  vm_compute. discriminate.
Qed.

(** ** The matcher finds words of the pattern *)

Lemma not_literal_star_sound {R} (c : char) (s : str) :
  forall (k : str -> str -> option R) (r : R),
    Re.not_literal_star c s k = Some r ->
    exists run rest, s = run ++ rest /\ ~ In c run /\ k run rest = Some r.
Proof.
  induction s as [|x s IH]; intros k r H; simpl in H.
  - exists [], []. auto.
  - destruct (negb (N.eqb x c)) eqn:E; [|exists [], (x :: s); auto].
    destruct (Re.not_literal_star c s (fun taken rest => k (x :: taken) rest))
      as [r'|] eqn:F; [|exists [], (x :: s); auto].
    injection H as <-.
    apply IH in F. destruct F as [run [rest [-> [Hn Hk]]]].
    exists (x :: run), rest. split; [reflexivity|]. split; [|exact Hk].
    intros [->|Hin]; [|tauto].
    rewrite N.eqb_refl in E. discriminate.
Qed.

Lemma match_here_sound (p : Re.regex) :
  forall s caps caps' rest,
    Re.match_here p s caps = Some (caps', rest) ->
    exists w, s = w ++ rest /\ word_of p w caps caps'.
Proof.
  induction p as [|[c | c | g c] p IH]; intros s caps caps' rest H; simpl in H.
  - injection H as <- <-. exists []. split; [reflexivity | constructor].
  - destruct s as [|x s]; [discriminate|].
    destruct (Re.literal_matches c x) eqn:E; [|discriminate].
    apply IH in H. destruct H as [w [-> Hm]].
    exists (x :: w). split; [reflexivity | constructor; assumption].
  - apply not_literal_star_sound in H.
    destruct H as [run [rest' [-> [Hn H]]]].
    apply IH in H. destruct H as [w [-> Hm]].
    exists (run ++ w). rewrite app_assoc. split; [reflexivity|].
    constructor; assumption.
  - apply not_literal_star_sound in H.
    destruct H as [run [rest' [-> [Hn H]]]].
    apply IH in H. destruct H as [w [-> Hm]].
    exists (run ++ w). rewrite app_assoc. split; [reflexivity|].
    constructor; assumption.
Qed.

Lemma findall_from_sound (p : Re.regex) (s : str) :
  forall skip m,
    In m (Re.findall_from p s skip) ->
    exists pre w post, s = pre ++ w ++ post /\ word_of p w ([], []) m.
Proof.
  induction s as [|x s IH]; intros skip m H.
  - destruct skip; simpl in H; [|contradiction].
    destruct (Re.match_here p [] ([], [])) as [[caps rest]|] eqn:E;
      [|contradiction].
    destruct H as [<-|[]].
    apply match_here_sound in E. destruct E as [w [E Hm]].
    exists [], w, rest. auto.
  - assert (Hlater : forall k, In m (Re.findall_from p s k) ->
              exists pre w post,
                x :: s = pre ++ w ++ post /\ word_of p w ([], []) m).
    { intros k Hk. apply IH in Hk. destruct Hk as [pre [w [post [-> Hm]]]].
      exists (x :: pre), w, post. auto. }
    destruct skip; simpl in H; [|eapply Hlater; eassumption].
    destruct (Re.match_here p (x :: s) ([], [])) as [[caps rest]|] eqn:E;
      [|eapply Hlater; eassumption].
    destruct H as [<-|H]; [|eapply Hlater; eassumption].
    apply match_here_sound in E. destruct E as [w [E Hm]].
    exists [], w, rest. auto.
Qed.

Lemma findall_sound (p : Re.regex) (s : str) (m : str * str) :
  In m (Re.findall p s) ->
  exists pre w post, s = pre ++ w ++ post /\ word_of p w ([], []) m.
Proof. apply findall_from_sound. Qed.

(** ** Taking a word of a pattern apart *)

Lemma word_literals (l : str) :
  forall p w caps caps',
    word_of (Re.literals l ++ p) w caps caps' ->
    exists u v, w = u ++ v /\ ci_eq l u /\ word_of p v caps caps'.
Proof.
  induction l as [|c l IH]; intros p w caps caps' H; simpl in H.
  - exists [], w. repeat split; [constructor | assumption].
  - inversion H as [| ? x ? w' ? ? Hc Hm | |]; subst.
    apply IH in Hm. destruct Hm as [u [v [-> [Hu Hm]]]].
    exists (x :: u), v. repeat split; [constructor; assumption | assumption].
Qed.

Lemma word_literals_end (l w : str) (caps caps' : Re.captures) :
  word_of (Re.literals l) w caps caps' -> ci_eq l w /\ caps' = caps.
Proof.
  intros H. rewrite <- (app_nil_r (Re.literals l)) in H.
  apply word_literals in H. destruct H as [u [v [-> [Hu Hm]]]].
  inversion Hm; subst. rewrite app_nil_r. auto.
Qed.

Lemma word_star_inv (c : char) (p : Re.regex) (w : str)
    (caps caps' : Re.captures) :
  word_of (Re.NotLiteralStar c :: p) w caps caps' ->
  exists run v, w = run ++ v /\ ~ In c run /\ word_of p v caps caps'.
Proof. intros H. inversion H; subst. eauto. Qed.

Lemma word_capture_inv (g : Re.group) (c : char) (p : Re.regex) (w : str)
    (caps caps' : Re.captures) :
  word_of (Re.CaptureNotLiteralStar g c :: p) w caps caps' ->
  exists run v,
    w = run ++ v /\ ~ In c run /\ word_of p v (Re.set_group g run caps) caps'.
Proof. intros H. inversion H; subst. eauto. Qed.

Ltac take_literals H u Hu :=
  let v := fresh "v" in
  apply word_literals in H; destruct H as [u [v [-> [Hu H]]]];
  cbn [app] in H.

Ltac take_star H run Hrun :=
  let v := fresh "v" in
  apply word_star_inv in H; destruct H as [run [v [-> [Hrun H]]]].

Ltac take_capture H run Hrun :=
  let v := fresh "v" in
  apply word_capture_inv in H; destruct H as [run [v [-> [Hrun H]]]];
  cbn [Re.set_group fst snd] in H.

Lemma forward_pattern_shape (w t x : str) :
  word_of pattern w ([], []) (t, x) -> forward_shape w t x.
Proof.
  intros H. unfold pattern in H.
  take_literals H o Ho. take_star H a1 Ha1.
  take_literals H ty Hty. take_capture H t' Ht.
  take_literals H q Hq. take_star H a2 Ha2.
  take_literals H rf Hrf. take_star H a3 Ha3.
  take_literals H ket Hket. take_capture H x' Hx.
  match type of H with
  | word_of _ ?cl _ _ =>
      apply word_literals_end in H; destruct H as [Hcl [= -> ->]];
      exists o, a1, ty, q, a2, rf, a3, ket, cl
  end.
  repeat split; assumption.
Qed.

Lemma reverse_pattern_shape (w t x : str) :
  word_of pattern_reverse w ([], []) (t, x) -> reverse_shape w t x.
Proof.
  intros H. unfold pattern_reverse in H.
  take_literals H o Ho. take_star H a1 Ha1.
  take_literals H rf Hrf. take_star H a2 Ha2.
  take_literals H ty Hty. take_capture H t' Ht.
  take_literals H q Hq. take_star H a3 Ha3.
  take_literals H ket Hket. take_capture H x' Hx.
  match type of H with
  | word_of _ ?cl _ _ =>
      apply word_literals_end in H; destruct H as [Hcl [= -> ->]];
      exists o, a1, rf, a2, ty, q, a3, ket, cl
  end.
  repeat split; assumption.
Qed.

(** ** Where a fallback record comes from *)

Lemma in_merge (r : ReferenceObject) (new : list ReferenceObject) :
  forall acc,
    In r (fold_left add_unless_present new acc) -> In r acc \/ In r new.
Proof.
  induction new as [|x new IH]; intros acc H; simpl in H; [auto|].
  apply IH in H. destruct H as [H|H]; [|simpl; auto].
  unfold add_unless_present in H. destruct (present x acc); [auto|].
  apply in_app_or in H. destruct H as [H|[<-|[]]]; simpl; auto.
Qed.

Lemma match_record_origin (file_path : str) (ms : list (str * str))
    (r : ReferenceObject) :
  In r (flat_map (match_record file_path) ms) ->
  exists t x,
    In (t, x) ms /\ strip x <> [] /\ r = new_record (strip x) t file_path.
Proof.
  intros H. apply in_flat_map in H. destruct H as [[t x] [Hin H]].
  unfold match_record in H. simpl in H.
  destruct (truthy (strip x)) eqn:E; [|contradiction].
  destruct H as [<-|[]]. exists t, x. repeat split; auto.
  apply truthy_true. exact E.
Qed.

(** Every record of the fallback path is cut out of a piece of the
    content that has the shape of one of the two patterns. *)
Lemma fallback_record_origin (file_path content : str) (r : ReferenceObject) :
  In r (fallback_records file_path content) ->
  exists pre w post t x,
    content = pre ++ w ++ post
    /\ (forward_shape w t x \/ reverse_shape w t x)
    /\ strip x <> []
    /\ r = new_record (strip x) t file_path.
Proof.
  intros H. apply in_merge in H. destruct H as [H|H];
    apply match_record_origin in H; destruct H as [t [x [Hin [Hx ->]]]];
    apply findall_sound in Hin; destruct Hin as [pre [w [post [-> Hm]]]];
    exists pre, w, post, t, x; repeat split; auto.
  - left. apply forward_pattern_shape. exact Hm.
  - right. apply reverse_pattern_shape. exact Hm.
Qed.

Lemma starts_ci_app (lit : str) :
  forall a b, starts_ci lit a = true -> starts_ci lit (a ++ b) = true.
Proof.
  induction lit as [|c lit IH]; intros a b H; [reflexivity|].
  destruct a as [|x a]; [discriminate|]. simpl in *.
  apply andb_true_iff in H. destruct H as [-> H]. apply IH. exact H.
Qed.

Lemma occurs_ci_self (lit u : str) : ci_eq lit u -> occurs_ci lit u = true.
Proof.
  intros H.
  assert (S : starts_ci lit u = true).
  { induction H as [|c x lit u Hc H IH]; [reflexivity|].
    simpl. rewrite Hc. exact IH. }
  destruct u; simpl; rewrite S; reflexivity.
Qed.

Lemma occurs_ci_app_l (lit a b : str) :
  occurs_ci lit a = true -> occurs_ci lit (a ++ b) = true.
Proof.
  induction a as [|x a IH]; simpl; intros H.
  - rewrite orb_false_r in H.
    destruct lit; [|discriminate]. destruct b; reflexivity.
  - apply orb_true_iff in H. destruct H as [H|H].
    + change (x :: a ++ b) with ((x :: a) ++ b).
      rewrite (starts_ci_app lit (x :: a) b H). reflexivity.
    + rewrite (IH H). apply orb_true_r.
Qed.

Lemma occurs_ci_app_r (lit a b : str) :
  occurs_ci lit b = true -> occurs_ci lit (a ++ b) = true.
Proof.
  intros H. induction a as [|x a IH]; simpl; [exact H|].
  rewrite IH. apply orb_true_r.
Qed.

Ltac find_occurrence :=
  first [ apply occurs_ci_self; assumption
        | apply occurs_ci_app_l; find_occurrence
        | apply occurs_ci_app_r; find_occurrence ].

(** The content of a fallback record holds the closing tag, the text
    [Type=] with an opening double quote, and the text
    [Reference="true"], in some letter case. *)
Lemma fallback_record_needs (file_path content : str) (r : ReferenceObject) :
  In r (fallback_records file_path content) ->
  occurs_ci (py "</Object>") content = true
  /\ occurs_ci (xml "Type='") content = true
  /\ occurs_ci (xml "Reference='true'") content = true.
Proof.
  intros H. apply fallback_record_origin in H.
  destruct H as [pre [w [post [t [x [-> [[S|S] _]]]]]]].
  - destruct S as (o & a1 & ty & q & a2 & rf & a3 & ket & cl & -> & Ho & _
                   & Hty & _ & _ & _ & Hrf & _ & _ & _ & Hcl).
    repeat split; find_occurrence.
  - destruct S as (o & a1 & rf & a2 & ty & q & a3 & ket & cl & -> & Ho & _
                   & Hrf & _ & Hty & _ & _ & _ & _ & _ & Hcl).
    repeat split; find_occurrence.
Qed.

Lemma fallback_without_text (lit file_path content : str) :
  lit = py "</Object>" \/ lit = xml "Type='" \/ lit = xml "Reference='true'" ->
  occurs_ci lit content = false ->
  fallback_records file_path content = [].
Proof.
  intros Hlit Hno.
  destruct (fallback_records file_path content) as [|r l] eqn:E;
    [reflexivity|].
  assert (Hin : In r (fallback_records file_path content))
    by (rewrite E; left; reflexivity).
  apply fallback_record_needs in Hin. destruct Hin as [H1 [H2 H3]].
  destruct Hlit as [-> | [-> | ->]]; congruence.
Qed.

(** C4, as the program has it.  Both patterns end in the closing tag, so
    content that the parser rejects and that holds no closing tag of
    [Object], as the content of the claim does, gives no record.  With
    the element closed and a tag left open after it, the parser rejects
    the content and the fallback path gives the one record
    (bar.lib, Lib). *)
Theorem C4_fallback_needs_closing_tag :
  (forall read_text ET_fromstring file_path content msg,
      read_text file_path = inr content ->
      ET_fromstring content = inl (ParseError msg) ->
      occurs_ci (py "</Object>") content = false ->
      process_pkg_for_references read_text ET_fromstring file_path = ([], []))
  /\ XmlSubset.fromstring Malformed.unclosed = Malformed.not_well_formed
  /\ occurs_ci (py "</Object>") Malformed.unclosed = false
  /\ (forall read_text file_path,
        read_text file_path = inr Malformed.closed_then_open ->
        XmlSubset.fromstring Malformed.closed_then_open
        = Malformed.not_well_formed
        /\ process_pkg_for_references read_text XmlSubset.fromstring file_path
           = ([new_record (py "bar.lib") (py "Lib") file_path], [])).
Proof.
  split; [|split; [|split]].
  - intros read_text ET_fromstring file_path content msg Hr Hp Hno.
    rewrite (process_parse_error read_text ET_fromstring file_path content
               msg Hr Hp).
    rewrite (fallback_without_text (py "</Object>") file_path content);
      auto.
  - vm_compute. reflexivity.
  - vm_compute. reflexivity.
  - intros read_text file_path Hr.
    assert (Hp : XmlSubset.fromstring Malformed.closed_then_open
                 = Malformed.not_well_formed) by (vm_compute; reflexivity).
    split; [exact Hp|].
    rewrite (process_parse_error read_text XmlSubset.fromstring file_path
               Malformed.closed_then_open _ Hr Hp).
    vm_compute. reflexivity.
Qed.

Lemma C4_fallback_needs_closing_tag_witness :
  process_pkg_for_references (Demo.single_file Malformed.unclosed)
    XmlSubset.fromstring (py "demo.pkg") = ([], [])
  /\ process_pkg_for_references (Demo.single_file Malformed.closed_then_open)
       XmlSubset.fromstring (py "demo.pkg")
     = ([new_record (py "bar.lib") (py "Lib") (py "demo.pkg")], []).
Proof.
  split.
  - apply (proj1 C4_fallback_needs_closing_tag
             (Demo.single_file Malformed.unclosed) XmlSubset.fromstring
             (py "demo.pkg") Malformed.unclosed (py "not well-formed"));
      vm_compute; reflexivity.
  - apply (proj2 (proj2 (proj2 C4_fallback_needs_closing_tag))
             (Demo.single_file Malformed.closed_then_open) (py "demo.pkg")).
    reflexivity.
Defined.

(** C4, as the claim states it, fails: on the content of the claim the
    parser raises [ParseError], neither pattern matches, and the extractor
    returns no record where the claim has one. *)
Lemma C4_counterexample :
  XmlSubset.fromstring Malformed.unclosed = Malformed.not_well_formed
  /\ Re.findall pattern Malformed.unclosed = []
  /\ Re.findall pattern_reverse Malformed.unclosed = []
  /\ process_pkg_for_references (Demo.single_file Malformed.unclosed)
       XmlSubset.fromstring (py "demo.pkg") = ([], [])
  /\ fst (process_pkg_for_references (Demo.single_file Malformed.unclosed)
            XmlSubset.fromstring (py "demo.pkg"))
     <> [new_record (py "bar.lib") (py "Lib") (py "demo.pkg")].
Proof.
  repeat split; try (vm_compute; reflexivity).
  vm_compute. discriminate.
Qed.

(** C5, at the failing input.  The element of [cross_reference] has the
    attributes [Type] and [CrossReference] and no attribute [Reference];
    its root is never closed, so the parser raises [ParseError]; the
    forward pattern finds [Reference="true"] at the end of
    [CrossReference="true"], and the extractor returns a record. *)
Theorem C5_reference_text_inside_another_name :
  (exists e, XmlSubset.parse Malformed.cross_reference_element
             = XmlSubset.Good e
             /\ attrib e = [(py "Type", py "A");
                            (py "CrossReference", py "true")]
             /\ get e (py "Reference") = None)
  /\ XmlSubset.fromstring Malformed.cross_reference
     = Malformed.not_well_formed
  /\ process_pkg_for_references (Demo.single_file Malformed.cross_reference)
       XmlSubset.fromstring (py "demo.pkg")
     = ([new_record (py "X") (py "A") (py "demo.pkg")], []).
Proof.
  split; [|split]; [|vm_compute; reflexivity..].
  eexists. split; [vm_compute; reflexivity|]. split; reflexivity.
Qed.

(** C6, at the failing input.  The element of [sub_type] has the
    attributes [SubType] and [Reference] and no attribute [Type]; its
    root is never closed, so the parser raises [ParseError]; the forward
    pattern finds [Type="A"] at the end of [SubType="A"], and the
    extractor returns a record of type [A]. *)
Theorem C6_type_text_inside_another_name :
  (exists e, XmlSubset.parse Malformed.sub_type_element = XmlSubset.Good e
             /\ attrib e = [(py "SubType", py "A");
                            (py "Reference", py "true")]
             /\ get e (py "Type") = None)
  /\ XmlSubset.fromstring Malformed.sub_type = Malformed.not_well_formed
  /\ process_pkg_for_references (Demo.single_file Malformed.sub_type)
       XmlSubset.fromstring (py "demo.pkg")
     = ([new_record (py "X") (py "A") (py "demo.pkg")], []).
Proof.
  split; [|split]; [|vm_compute; reflexivity..].
  eexists. split; [vm_compute; reflexivity|]. split; reflexivity.
Qed.

(** * Further properties of the extractor and the walker *)

(** ** More about text *)

Lemma lstrip_blank (s : str) : blank s = true -> lstrip s = [].
Proof.
  unfold blank. induction s as [|c s IH]; simpl; [reflexivity|].
  intros H. apply andb_true_iff in H. destruct H as [-> H]. apply IH, H.
Qed.

Lemma strip_blank (s : str) : blank s = true -> strip s = [].
Proof. intros H. unfold strip. rewrite (lstrip_blank s H). reflexivity. Qed.

(** [strip] cuts a run of white space off each end. *)
Lemma strip_split (s : str) :
  exists left right,
    s = left ++ strip s ++ right /\ blank left = true /\ blank right = true.
Proof.
  destruct (lstrip_split s) as [w1 [E1 B1]].
  destruct (lstrip_split (rev (lstrip s))) as [w2 [E2 B2]].
  exists w1, (rev w2). unfold strip, rstrip. repeat split.
  - rewrite E1 at 1. f_equal.
    rewrite <- (rev_involutive (lstrip s)) at 1.
    rewrite E2 at 1. rewrite rev_app_distr. reflexivity.
  - exact B1.
  - unfold blank. rewrite forallb_forall in *. intros c Hc.
    apply B2. apply in_rev. exact Hc.
Qed.

Lemma strip_incl (s : str) (c : char) : In c (strip s) -> In c s.
Proof.
  destruct (strip_split s) as [l [r [E _]]]. intros H.
  rewrite E. apply in_or_app. right. apply in_or_app. left. exact H.
Qed.

Lemma ci_eq_length (lit s : str) : ci_eq lit s -> List.length s = List.length lit.
Proof. intros H. symmetry. eapply Forall2_length. exact H. Qed.

(** ** More about the extractor *)

Lemma process_records_invariant (read_text : str -> exception + str)
    (ET_fromstring : str -> exception + Element) (file_path : str) :
  Forall (record_invariant file_path)
    (fst (process_pkg_for_references read_text ET_fromstring file_path)).
Proof.
  destruct (process_outcomes read_text ET_fromstring file_path)
    as [[e [_ H]] | [[c [r [_ [_ H]]]] | [[c [m [_ [_ H]]]]
        | [c [e [_ [_ [_ H]]]]]]]]; rewrite H; simpl.
  - constructor.
  - apply structured_records_invariant.
  - apply fallback_records_invariant.
  - constructor.
Qed.

Lemma process_prints_at_most_once (read_text : str -> exception + str)
    (ET_fromstring : str -> exception + Element) (file_path : str) :
  snd (process_pkg_for_references read_text ET_fromstring file_path) = []
  \/ exists e,
       process_pkg_for_references read_text ET_fromstring file_path
       = ([], [warning file_path e]).
Proof.
  destruct (process_outcomes read_text ET_fromstring file_path)
    as [[e [_ H]] | [[c [r [_ [_ H]]]] | [[c [m [_ [_ H]]]]
        | [c [e [_ [_ [_ H]]]]]]]]; rewrite H; simpl; eauto.
Qed.

(** The extractor reads no file but the one it is given. *)
Lemma process_reads_one_file (read1 read2 : str -> exception + str)
    (ET_fromstring : str -> exception + Element) (file_path : str) :
  read1 file_path = read2 file_path ->
  process_pkg_for_references read1 ET_fromstring file_path
  = process_pkg_for_references read2 ET_fromstring file_path.
Proof.
  intros H. unfold process_pkg_for_references, try_body, Body.bind, Body.call.
  rewrite H. reflexivity.
Qed.

Lemma flat_map_ext_in {A B} (f g : A -> list B) (l : list A) :
  (forall x, In x l -> f x = g x) -> flat_map f l = flat_map g l.
Proof.
  induction l as [|x l IH]; intros H; simpl; [reflexivity|].
  rewrite (H x (or_introl eq_refl)), IH; [reflexivity|].
  intros y Hy. apply H. right. exact Hy.
Qed.

Lemma flat_map_length_le {A B} (f : A -> list B) (l : list A) :
  (forall x, List.length (f x) <= 1) ->
  List.length (flat_map f l) <= List.length l.
Proof.
  intros H. induction l as [|x l IH]; simpl; [lia|].
  rewrite length_app. specialize (H x). lia.
Qed.

(** ** The reverse pass only appends *)

Lemma merge_appends (new : list ReferenceObject) :
  forall acc,
    Forall unnumbered acc -> Forall unnumbered new ->
    exists added,
      fold_left add_unless_present new acc = acc ++ added
      /\ NoDup added
      /\ (forall r, In r added -> In r new /\ ~ In r acc).
Proof.
  induction new as [|x new IH]; intros acc Hacc Hnew; simpl.
  - exists []. rewrite app_nil_r. repeat split; [constructor | contradiction..].
  - inversion Hnew as [|? ? Hx Hnew']; subst.
    unfold add_unless_present at 2. destruct (present x acc) eqn:P.
    + destruct (IH acc Hacc Hnew') as [added [E [ND Hin]]].
      exists added. repeat split; auto.
      * right. apply Hin. assumption.
      * apply Hin. assumption.
    + assert (Hx' : ~ In x acc).
      { intros H. apply (present_In x acc Hx Hacc) in H. congruence. }
      destruct (IH (acc ++ [x])) as [added [E [ND Hin]]]; auto.
      { apply Forall_app; split; [assumption | constructor; auto]. }
      exists (x :: added). rewrite E, <- app_assoc. repeat split.
      * constructor; [|exact ND].
        intros H. apply Hin in H. destruct H as [_ H].
        apply H. apply in_or_app. right. left. reflexivity.
      * destruct H as [<-|H]; [left; reflexivity|].
        right. apply Hin. exact H.
      * destruct H as [<-|H]; [exact Hx'|].
        intros Ha. apply Hin in H. destruct H as [_ H].
        apply H. apply in_or_app. left. exact Ha.
Qed.

Lemma merge_keeps (new : list ReferenceObject) :
  forall acc r,
    Forall unnumbered acc -> Forall unnumbered new ->
    In r acc \/ In r new ->
    In r (fold_left add_unless_present new acc).
Proof.
  induction new as [|x new IH]; intros acc r Hacc Hnew H; simpl.
  - destruct H as [H|[]]. exact H.
  - inversion Hnew as [|? ? Hx Hnew']; subst.
    assert (Hacc' : Forall unnumbered (add_unless_present acc x)).
    { unfold add_unless_present. destruct (present x acc); [assumption|].
      apply Forall_app; split; [assumption | constructor; auto]. }
    apply IH; auto.
    destruct H as [H|[<-|H]]; [left | left | right; exact H].
    + unfold add_unless_present. destruct (present x acc); [exact H|].
      apply in_or_app. left. exact H.
    + unfold add_unless_present. destruct (present x acc) eqn:P.
      * apply (present_In x acc Hx Hacc). exact P.
      * apply in_or_app. right. left. reflexivity.
Qed.

(** ** Records do not depend on the path *)

Lemma relabel_match_record (p1 p2 : str) (ms : list (str * str)) :
  map (relabel p2) (flat_map (match_record p1) ms)
  = flat_map (match_record p2) ms.
Proof.
  induction ms as [|[t x] ms IH]; simpl; [reflexivity|].
  rewrite map_app, IH. unfold match_record at 1 3. simpl.
  destruct (truthy (strip x)); reflexivity.
Qed.

Lemma match_record_at_path (file_path : str) (ms : list (str * str)) :
  Forall (at_path file_path) (flat_map (match_record file_path) ms).
Proof.
  eapply Forall_impl; [|apply (match_record_invariant file_path ms)].
  intros r H. apply H.
Qed.

Lemma present_relabel (p1 p2 : str) (r : ReferenceObject)
    (acc : list ReferenceObject) :
  at_path p1 r -> Forall (at_path p1) acc ->
  present (relabel p2 r) (map (relabel p2) acc) = present r acc.
Proof.
  unfold at_path, present. intros Hr Hacc.
  induction Hacc as [|a acc Ha Hacc IH]; [reflexivity|].
  cbn [map existsb]. rewrite IH. f_equal.
  unfold same_triple, relabel.
  cbn [object_name object_type pkg_file_path new_record].
  rewrite Hr, Ha, !str_eqb_refl. reflexivity.
Qed.

Lemma relabel_merge (p1 p2 : str) (new : list ReferenceObject) :
  forall acc,
    Forall (at_path p1) acc -> Forall (at_path p1) new ->
    map (relabel p2) (fold_left add_unless_present new acc)
    = fold_left add_unless_present (map (relabel p2) new)
                (map (relabel p2) acc).
Proof.
  induction new as [|x new IH]; intros acc Hacc Hnew; simpl; [reflexivity|].
  inversion Hnew as [|? ? Hx Hnew']; subst.
  rewrite IH; auto.
  - f_equal. unfold add_unless_present.
    rewrite (present_relabel p1 p2 x acc Hx Hacc).
    destruct (present x acc); [reflexivity|].
    rewrite map_app. reflexivity.
  - unfold add_unless_present. destruct (present x acc); [assumption|].
    apply Forall_app; split; [assumption | constructor; auto].
Qed.

Lemma relabel_fallback_records (p1 p2 content : str) :
  map (relabel p2) (fallback_records p1 content) = fallback_records p2 content.
Proof.
  unfold fallback_records.
  rewrite (relabel_merge p1 p2); try apply match_record_at_path.
  unfold forward_records, reverse_records.
  rewrite !relabel_match_record. reflexivity.
Qed.

Lemma relabel_structured_records (p1 p2 : str) (root : Element) :
  map (relabel p2) (structured_records p1 root) = structured_records p2 root.
Proof. unfold structured_records. rewrite map_map. reflexivity. Qed.

(** ** Properties of the walker *)

(** Every record the walker returns was extracted from a [.pkg] file of
    the subtree: its path is the joined path of such a file, and it keeps
    the record invariant for that path. *)
Theorem walker_records_provenance :
  forall read_text ET_fromstring scandir os_path_join project_path r,
    In r (fst (check_reference_objects read_text ET_fromstring scandir
                 os_path_join project_path)) ->
    exists dir file,
      In (dir, file) (subtree_files scandir os_path_join project_path)
      /\ is_pkg file = true
      /\ pkg_file_path r = os_path_join dir file
      /\ record_invariant (os_path_join dir file) r.
Proof.
  intros read_text ET_fromstring scandir os_path_join project_path r H.
  rewrite check_reference_objects_concat in H. cbn [fst] in H.
  apply in_flat_map in H. destruct H as [path [Hpath Hr]].
  apply (Permutation_in _ (walked_paths_permutation os_path_join scandir
                             project_path)) in Hpath.
  unfold subtree_pkg_paths in Hpath.
  apply in_map_iff in Hpath. destruct Hpath as [[dir file] [<- Hdf]].
  apply filter_In in Hdf. destruct Hdf as [Hin Hpkg].
  exists dir, file. cbn [fst snd] in *.
  pose proof (process_records_invariant read_text ET_fromstring
                (os_path_join dir file)) as Hinv.
  rewrite Forall_forall in Hinv. specialize (Hinv r Hr).
  repeat split; auto; apply Hinv.
Qed.

Lemma walker_records_provenance_witness :
  exists dir file,
    In (dir, file)
       (subtree_files Demo.project_scandir posix_join (py "proj"))
    /\ is_pkg file = true
    /\ pkg_file_path (new_record (py "Two") (py "Package") (py "proj/a.pkg"))
       = posix_join dir file
    /\ record_invariant (posix_join dir file)
         (new_record (py "Two") (py "Package") (py "proj/a.pkg")).
Proof.
  apply (walker_records_provenance Demo.project_read XmlSubset.fromstring
           Demo.project_scandir posix_join (py "proj")).
  vm_compute. right. left. reflexivity.
Defined.

(** The walker prints at most one line for each [.pkg] file of the
    subtree, and every line it prints is the warning of such a file, from
    which it then has no record. *)
Theorem walker_warnings :
  forall read_text ET_fromstring scandir os_path_join project_path,
    let out := check_reference_objects read_text ET_fromstring scandir
                 os_path_join project_path in
    List.length (snd out)
    <= List.length (subtree_pkg_paths scandir os_path_join project_path)
    /\ (forall line,
          In line (snd out) ->
          exists path e,
            In path (subtree_pkg_paths scandir os_path_join project_path)
            /\ line = warning path e
            /\ fst (process_pkg_for_references read_text ET_fromstring path)
               = []).
Proof.
  intros read_text ET_fromstring scandir os_path_join project_path out.
  subst out. rewrite check_reference_objects_concat. cbn [snd].
  pose proof (walked_paths_permutation os_path_join scandir project_path)
    as Hperm.
  split.
  - rewrite <- (Permutation_length Hperm).
    apply flat_map_length_le. intros path.
    destruct (process_prints_at_most_once read_text ET_fromstring path)
      as [E|[e E]]; rewrite E; simpl; lia.
  - intros line H. apply in_flat_map in H. destruct H as [path [Hpath Hl]].
    destruct (process_prints_at_most_once read_text ET_fromstring path)
      as [E|[e E]]; rewrite E in Hl; [contradiction|].
    destruct Hl as [<-|[]].
    exists path, e. repeat split.
    + apply (Permutation_in _ Hperm). exact Hpath.
    + rewrite E. reflexivity.
Qed.

Lemma walker_warnings_witness :
  exists path e,
    In path (subtree_pkg_paths Demo.project_scandir posix_join (py "proj"))
    /\ py "Warning: Error processing proj/sub/b.pkg: [Errno 13] Permission denied"
       = warning path e
    /\ fst (process_pkg_for_references Demo.project_read XmlSubset.fromstring
              path) = [].
Proof.
  apply (proj2 (walker_warnings Demo.project_read XmlSubset.fromstring
                  Demo.project_scandir posix_join (py "proj"))).
  vm_compute. left. reflexivity.
Defined.

(** The walker opens the [.pkg] files of the subtree and no other file:
    two worlds whose [.pkg] files read alike give the same result. *)
Theorem walker_reads_only_pkg_files :
  forall read1 read2 ET_fromstring scandir os_path_join project_path,
    (forall path,
        In path (subtree_pkg_paths scandir os_path_join project_path) ->
        read1 path = read2 path) ->
    check_reference_objects read1 ET_fromstring scandir os_path_join
      project_path
    = check_reference_objects read2 ET_fromstring scandir os_path_join
        project_path.
Proof.
  intros read1 read2 ET_fromstring scandir os_path_join project_path H.
  rewrite !check_reference_objects_concat.
  assert (E : forall path,
             In path (walked_pkg_paths scandir os_path_join project_path) ->
             process_pkg_for_references read1 ET_fromstring path
             = process_pkg_for_references read2 ET_fromstring path).
  { intros path Hin. apply process_reads_one_file. apply H.
    apply (Permutation_in _ (walked_paths_permutation os_path_join scandir
                               project_path)). exact Hin. }
  f_equal; apply flat_map_ext_in; intros path Hin; rewrite (E path Hin);
    reflexivity.
Qed.

Lemma walker_reads_only_pkg_files_witness :
  check_reference_objects Demo.project_read XmlSubset.fromstring
    Demo.project_scandir posix_join (py "proj")
  = check_reference_objects Sample.other_read XmlSubset.fromstring
      Demo.project_scandir posix_join (py "proj").
Proof.
  apply (walker_reads_only_pkg_files Demo.project_read Sample.other_read
           XmlSubset.fromstring Demo.project_scandir posix_join (py "proj")).
  intros path Hin. vm_compute in Hin.
  destruct Hin as [<-|[<-|[]]]; reflexivity.
Defined.

(** ** Properties of the extractor *)

(** The records of a file depend on its content only: read under another
    path, the same content gives the same records with that path. *)
Theorem records_depend_on_content_only :
  forall read_text ET_fromstring path1 path2,
    read_text path1 = read_text path2 ->
    fst (process_pkg_for_references read_text ET_fromstring path2)
    = map (relabel path2)
        (fst (process_pkg_for_references read_text ET_fromstring path1)).
Proof.
  intros read_text ET_fromstring path1 path2 H.
  destruct (process_outcomes read_text ET_fromstring path1)
    as [[e [Hr E]] | [[c [r [Hr [Hp E]]]] | [[c [m [Hr [Hp E]]]]
        | [c [e [Hr [Hp [Hne E]]]]]]]]; rewrite E; cbn [fst];
    rewrite H in Hr.
  - rewrite (process_read_error read_text ET_fromstring path2 e Hr).
    reflexivity.
  - rewrite (process_parsed read_text ET_fromstring path2 c r Hr Hp).
    cbn [fst]. symmetry. apply relabel_structured_records.
  - rewrite (process_parse_error read_text ET_fromstring path2 c m Hr Hp).
    cbn [fst]. symmetry. apply relabel_fallback_records.
  - rewrite (process_parser_raises read_text ET_fromstring path2 c e Hr Hp
               Hne).
    reflexivity.
Qed.

Lemma records_depend_on_content_only_witness :
  fst (process_pkg_for_references
         (Demo.single_file Malformed.forward_then_reverse)
         XmlSubset.fromstring (py "b.pkg"))
  = map (relabel (py "b.pkg"))
      (fst (process_pkg_for_references
              (Demo.single_file Malformed.forward_then_reverse)
              XmlSubset.fromstring (py "a.pkg"))).
Proof.
  apply (records_depend_on_content_only
           (Demo.single_file Malformed.forward_then_reverse)
           XmlSubset.fromstring (py "a.pkg") (py "b.pkg")).
  reflexivity.
Defined.

(** On the fallback path the type of a record holds no double quote, its
    name holds no opening angle bracket, and both are pieces of the
    content. *)
Theorem fallback_record_fields :
  forall read_text ET_fromstring file_path content msg r,
    read_text file_path = inr content ->
    ET_fromstring content = inl (ParseError msg) ->
    In r (fst (process_pkg_for_references read_text ET_fromstring file_path)) ->
    ~ In dquote (object_type r)
    /\ ~ In 60%N (object_name r)
    /\ substring (object_type r) content
    /\ substring (object_name r) content.
Proof.
  intros read_text ET_fromstring file_path content msg r Hr Hp H.
  rewrite (process_parse_error read_text ET_fromstring file_path content msg
             Hr Hp) in H. cbn [fst] in H.
  apply fallback_record_origin in H.
  destruct H as [pre [w [post [t [x [-> [S [_ ->]]]]]]]].
  destruct (strip_split x) as [ws1 [ws2 [Ex _]]].
  cbn [object_type object_name new_record].
  destruct S as [S|S].
  - destruct S as (o & a1 & ty & q & a2 & rf & a3 & ket & cl & -> & _ & _
                   & _ & Ht & _ & _ & _ & _ & _ & Hx & _).
    repeat split.
    + exact Ht.
    + intros Hc. apply Hx. apply strip_incl. exact Hc.
    + exists (pre ++ o ++ a1 ++ ty),
        (q ++ a2 ++ rf ++ a3 ++ ket ++ x ++ cl ++ post).
      rewrite <- !app_assoc. reflexivity.
    + exists (pre ++ o ++ a1 ++ ty ++ t ++ q ++ a2 ++ rf ++ a3 ++ ket ++ ws1),
        (ws2 ++ cl ++ post).
      rewrite Ex at 1. rewrite <- !app_assoc. reflexivity.
  - destruct S as (o & a1 & rf & a2 & ty & q & a3 & ket & cl & -> & _ & _
                   & _ & _ & _ & Ht & _ & _ & _ & Hx & _).
    repeat split.
    + exact Ht.
    + intros Hc. apply Hx. apply strip_incl. exact Hc.
    + exists (pre ++ o ++ a1 ++ rf ++ a2 ++ ty),
        (q ++ a3 ++ ket ++ x ++ cl ++ post).
      rewrite <- !app_assoc. reflexivity.
    + exists (pre ++ o ++ a1 ++ rf ++ a2 ++ ty ++ t ++ q ++ a3 ++ ket ++ ws1),
        (ws2 ++ cl ++ post).
      rewrite Ex at 1. rewrite <- !app_assoc. reflexivity.
Qed.

Lemma fallback_record_fields_witness :
  ~ In dquote (py "Lib")
  /\ ~ In 60%N (py "bar.lib")
  /\ substring (py "Lib") Malformed.closed_then_open
  /\ substring (py "bar.lib") Malformed.closed_then_open.
Proof.
  apply (fallback_record_fields (Demo.single_file Malformed.closed_then_open)
           XmlSubset.fromstring (py "demo.pkg") Malformed.closed_then_open
           (py "not well-formed")
           (new_record (py "bar.lib") (py "Lib") (py "demo.pkg"))).
  - reflexivity.
  - vm_compute. reflexivity.
  - vm_compute. left. reflexivity.
Defined.

(** On the fallback path the records of the forward pattern come first,
    in the order of the matches; the reverse pass only appends, each
    record it appends once, and none that the forward pattern found. *)
Theorem fallback_forward_records_first :
  forall read_text ET_fromstring file_path content msg,
    read_text file_path = inr content ->
    ET_fromstring content = inl (ParseError msg) ->
    exists added,
      fst (process_pkg_for_references read_text ET_fromstring file_path)
      = forward_records file_path content ++ added
      /\ NoDup added
      /\ (forall r, In r added ->
                    In r (reverse_records file_path content)
                    /\ ~ In r (forward_records file_path content)).
Proof.
  intros read_text ET_fromstring file_path content msg Hr Hp.
  rewrite (process_parse_error read_text ET_fromstring file_path content msg
             Hr Hp). cbn [fst].
  apply merge_appends; apply match_record_unnumbered.
Qed.

Lemma fallback_forward_records_first_witness :
  exists added,
    fst (process_pkg_for_references (Demo.single_file Sample.twice_reverse)
           XmlSubset.fromstring (py "demo.pkg"))
    = forward_records (py "demo.pkg") Sample.twice_reverse ++ added
    /\ NoDup added
    /\ (forall r, In r added ->
                  In r (reverse_records (py "demo.pkg") Sample.twice_reverse)
                  /\ ~ In r (forward_records (py "demo.pkg")
                               Sample.twice_reverse)).
Proof.
  apply (fallback_forward_records_first
           (Demo.single_file Sample.twice_reverse) XmlSubset.fromstring
           (py "demo.pkg") Sample.twice_reverse (py "not well-formed")).
  - reflexivity.
  - vm_compute. reflexivity.
Defined.

(** ** What the matcher does on a given text *)

Lemma pattern_items_eq : pattern = pattern_items.
Proof. reflexivity. Qed.

Lemma pattern_reverse_items_eq : pattern_reverse = pattern_reverse_items.
Proof. reflexivity. Qed.

Lemma literal_matches_refl (c : char) : Re.literal_matches c c = true.
Proof. apply N.eqb_refl. Qed.

(** A character below the letters is matched by itself only. *)
Lemma literal_matches_exact (c x : char) :
  (c < 65)%N -> Re.literal_matches c x = true -> x = c.
Proof.
  intros Hc H. unfold Re.literal_matches in H. apply N.eqb_eq in H.
  assert (Ec : Re.tolower c = c).
  { unfold Re.tolower.
    destruct (N.leb_spec 65 c); [lia|]. cbn [andb].
    destruct (N.eqb_spec c 304); [lia|].
    destruct (N.eqb_spec c 8490); [lia|]. reflexivity. }
  rewrite Ec in H. unfold Re.tolower in H.
  destruct ((65 <=? x) && (x <=? 90))%N eqn:U.
  - apply andb_true_iff in U. destruct U as [U _].
    apply N.leb_le in U. lia.
  - destruct (N.eqb_spec x 304); [lia|].
    destruct (N.eqb_spec x 8490); [lia|]. exact H.
Qed.

Lemma match_literals_same (lit : str) :
  forall p s caps,
    Re.match_here (Re.literals lit ++ p) (lit ++ s) caps
    = Re.match_here p s caps.
Proof.
  induction lit as [|l lit IH]; intros p s caps; simpl; [reflexivity|].
  rewrite literal_matches_refl. apply IH.
Qed.

Lemma match_literals_only (lit post : str) (caps : Re.captures) :
  Re.match_here (Re.literals lit) (lit ++ post) caps = Some (caps, post).
Proof.
  rewrite <- (app_nil_r (Re.literals lit)). rewrite match_literals_same.
  reflexivity.
Qed.

Lemma match_literals_fail (lit : str) :
  forall p s caps,
    starts_ci lit s = false ->
    Re.match_here (Re.literals lit ++ p) s caps = None.
Proof.
  induction lit as [|l lit IH]; intros p s caps H; simpl in *;
    [discriminate|].
  destruct s as [|x s]; [reflexivity|].
  destruct (Re.literal_matches l x); [apply IH; exact H | reflexivity].
Qed.

(** When the continuation accepts no run but the empty one, the greedy
    repetition ends up with the empty run. *)
Lemma star_only_empty {R} (c : char) (S : str) :
  forall k : str -> str -> option R,
    (forall run rest,
        S = run ++ rest -> run <> [] -> ~ In c run -> k run rest = None) ->
    Re.not_literal_star c S k = k [] S.
Proof.
  induction S as [|x S IH]; intros k H; simpl; [reflexivity|].
  destruct (N.eqb_spec x c) as [E|NE]; simpl; [reflexivity|].
  rewrite IH.
  - rewrite (H [x] S); [reflexivity | reflexivity | discriminate |].
    intros [E|[]]. congruence.
  - intros run rest E Hrun Hc.
    apply (H (x :: run) rest); [rewrite E; reflexivity | discriminate |].
    intros [E'|Hin]; [congruence | tauto].
Qed.

(** The greedy repetition settles on [run0] when the continuation accepts
    it and refuses every longer run. *)
Lemma star_at {R} (c : char) (run0 : str) :
  forall (S : str) (k : str -> str -> option R) (r : R),
    ~ In c run0 ->
    k run0 S = Some r ->
    (forall ext rest,
        S = ext ++ rest -> ext <> [] -> ~ In c ext ->
        k (run0 ++ ext) rest = None) ->
    Re.not_literal_star c (run0 ++ S) k = Some r.
Proof.
  induction run0 as [|a run0 IH]; intros S k r Hc Hk Hfail.
  - simpl. rewrite star_only_empty; [exact Hk|].
    intros run rest E Hrun Hcr. apply (Hfail run rest); assumption.
  - simpl. destruct (N.eqb_spec a c) as [E|NE].
    + exfalso. apply Hc. left. exact E.
    + simpl. rewrite (IH S (fun taken rest => k (a :: taken) rest) r).
      * reflexivity.
      * intros Hin. apply Hc. right. exact Hin.
      * exact Hk.
      * intros ext rest E Hext Hce. apply (Hfail ext rest); assumption.
Qed.

Lemma starts_ci_before (lit : str) (c : char) :
  avoids lit c = true ->
  forall suf tail,
    starts_ci lit (suf ++ c :: tail) = true -> starts_ci lit suf = true.
Proof.
  unfold avoids. induction lit as [|l lit IH]; intros Ha suf tail H;
    [reflexivity|].
  simpl in Ha. apply andb_true_iff in Ha. destruct Ha as [Hl Ha].
  destruct suf as [|x suf]; simpl in *.
  - apply negb_true_iff in Hl. rewrite Hl in H. discriminate.
  - apply andb_true_iff in H. destruct H as [-> H].
    apply (IH Ha suf tail H).
Qed.

Lemma starts_occurs (lit s : str) :
  starts_ci lit s = true -> occurs_ci lit s = true.
Proof. intros H. destruct s; simpl; rewrite H; reflexivity. Qed.

Lemma split_before (c : char) (ext : str) :
  forall R tail rest,
    R ++ c :: tail = ext ++ rest -> ~ In c ext ->
    exists suf, R = ext ++ suf /\ rest = suf ++ c :: tail.
Proof.
  induction ext as [|a ext IH]; intros R tail rest E Hc; simpl in E.
  - exists R. auto.
  - destruct R as [|b R]; simpl in E; injection E as E1 E2.
    + exfalso. apply Hc. left. congruence.
    + subst b. destruct (IH R tail rest E2) as [suf [-> ->]].
      * intros Hin. apply Hc. right. exact Hin.
      * exists suf. auto.
Qed.

(** Past its first position, a region in which [lit] does not occur
    offers the continuation no place to start. *)
Lemma star_condition (lit : str) (c : char) (R tail : str) :
  avoids lit c = true ->
  occurs_ci lit (tl R) = false ->
  forall ext rest,
    R ++ c :: tail = ext ++ rest -> ext <> [] -> ~ In c ext ->
    starts_ci lit rest = false.
Proof.
  intros Ha Hocc ext rest E Hext Hc.
  destruct (split_before c ext R tail rest E Hc) as [suf [-> ->]].
  destruct (starts_ci lit (suf ++ c :: tail)) eqn:S; [|reflexivity].
  apply (starts_ci_before lit c Ha) in S. apply starts_occurs in S.
  destruct ext as [|a ext]; [congruence|]. simpl in Hocc.
  rewrite (occurs_ci_app_r lit ext suf S) in Hocc. discriminate.
Qed.

(** A repetition followed by literal text: the match resumes at the only
    place of the region where the text occurs. *)
Lemma match_star_search (c : char) (lit : str) (p : Re.regex)
    (run0 R tail : str) (caps : Re.captures) (r : Re.captures * str) :
  ~ In c run0 ->
  avoids lit c = true ->
  occurs_ci lit (tl R) = false ->
  Re.match_here (Re.literals lit ++ p) (R ++ c :: tail) caps = Some r ->
  Re.match_here (Re.NotLiteralStar c :: Re.literals lit ++ p)
    (run0 ++ R ++ c :: tail) caps = Some r.
Proof.
  intros Hc Ha Hocc Hk. simpl. apply star_at; [exact Hc | exact Hk |].
  intros ext rest E Hext Hce. apply match_literals_fail.
  apply (star_condition lit c R tail Ha Hocc ext rest E Hext Hce).
Qed.

(** A repetition followed by the character it excludes takes the whole
    run. *)
Lemma match_star_stop (c : char) (p : Re.regex) (run tail : str)
    (caps : Re.captures) (r : Re.captures * str) :
  ~ In c run ->
  Re.match_here p tail caps = Some r ->
  Re.match_here (Re.NotLiteralStar c :: Re.Literal c :: p)
    (run ++ c :: tail) caps = Some r.
Proof.
  intros Hc Hk. simpl. apply star_at; [exact Hc | |].
  - simpl. rewrite literal_matches_refl. exact Hk.
  - intros ext rest E Hext Hce. exfalso. apply Hce.
    destruct ext as [|a ext]; [congruence|].
    injection E as -> _. left. reflexivity.
Qed.

Lemma match_capture_stop (g : Re.group) (c : char) (p : Re.regex)
    (run tail : str) (caps : Re.captures) (r : Re.captures * str) :
  ~ In c run ->
  Re.match_here p tail (Re.set_group g run caps) = Some r ->
  Re.match_here (Re.CaptureNotLiteralStar g c :: Re.Literal c :: p)
    (run ++ c :: tail) caps = Some r.
Proof.
  intros Hc Hk. simpl. apply star_at; [exact Hc | |].
  - simpl. rewrite literal_matches_refl. exact Hk.
  - intros ext rest E Hext Hce. exfalso. apply Hce.
    destruct ext as [|a ext]; [congruence|].
    injection E as -> _. left. reflexivity.
Qed.

(** ** Where a literal text cannot occur *)

Lemma starts_ci_clear (lit : str) :
  forall s M,
    starts_ci (firstn (List.length s) lit) s = false ->
    starts_ci lit (s ++ M) = false.
Proof.
  induction lit as [|l lit IH]; intros s M H.
  - rewrite firstn_nil in H. discriminate.
  - destruct s as [|a s]; simpl in H; [discriminate|]. simpl.
    destruct (Re.literal_matches l a); [|reflexivity].
    simpl in *. apply IH. exact H.
Qed.

Lemma occurs_ci_clear (lit C M : str) :
  clear_of lit C = true -> occurs_ci lit (C ++ M) = occurs_ci lit M.
Proof.
  induction C as [|a C IH]; intros H; [reflexivity|].
  cbn [clear_of] in H. apply andb_true_iff in H. destruct H as [H1 H2].
  apply negb_true_iff in H1.
  change ((a :: C) ++ M) with (a :: (C ++ M)). cbn [occurs_ci].
  change (a :: (C ++ M)) with ((a :: C) ++ M).
  rewrite (starts_ci_clear lit (a :: C) M H1). simpl. apply IH. exact H2.
Qed.

Lemma starts_ci_prefix (lp l2 : str) :
  forall s, starts_ci (lp ++ l2) s = true -> starts_ci lp s = true.
Proof.
  induction lp as [|l lp IH]; intros s H; [reflexivity|].
  destruct s as [|x s]; simpl in *; [discriminate|].
  apply andb_true_iff in H. destruct H as [-> H]. apply IH. exact H.
Qed.

(** A text that begins with [lp] does not start in [t], which holds no
    [lp], nor across the end of [t] when the next character is foreign
    to [lp]. *)
Lemma occurs_ci_guarded (lp l2 : str) (c : char) (v t : str) :
  avoids lp c = true ->
  occurs_ci lp t = false ->
  occurs_ci (lp ++ l2) (c :: v) = false ->
  occurs_ci (lp ++ l2) (t ++ c :: v) = false.
Proof.
  intros Ha. induction t as [|a t IH]; intros Ht Hv; [exact Hv|].
  cbn [occurs_ci] in Ht. apply orb_false_iff in Ht. destruct Ht as [Hs Ht].
  change ((a :: t) ++ c :: v) with (a :: (t ++ c :: v)). cbn [occurs_ci].
  rewrite (IH Ht Hv), orb_false_r.
  destruct (starts_ci (lp ++ l2) (a :: t ++ c :: v)) eqn:S; [|reflexivity].
  apply starts_ci_prefix in S.
  change (a :: t ++ c :: v) with ((a :: t) ++ c :: v) in S.
  apply (starts_ci_before lp c Ha) in S. congruence.
Qed.

(** A text of the form [lp], [c], [l2] that starts in [t], which holds no
    [c], has its [c] on the [c] that follows [t] and needs [l2] after
    it. *)
Lemma starts_ci_through (lp l2 : str) (c : char) :
  (c < 65)%N -> avoids lp c = true ->
  forall u v,
    ~ In c u ->
    starts_ci (lp ++ c :: l2) (u ++ c :: v) = true ->
    starts_ci l2 v = true.
Proof.
  intros Hc. unfold avoids.
  induction lp as [|l lp IH]; intros Ha u v Hu H.
  - destruct u as [|a u]; simpl in H.
    + apply andb_true_iff in H. apply H.
    + apply andb_true_iff in H. destruct H as [H _].
      apply (literal_matches_exact c a Hc) in H.
      exfalso. apply Hu. left. exact H.
  - simpl in Ha. apply andb_true_iff in Ha. destruct Ha as [Hl Ha].
    apply negb_true_iff in Hl.
    destruct u as [|a u]; simpl in H.
    + rewrite Hl in H. discriminate.
    + apply andb_true_iff in H. destruct H as [_ H].
      apply (IH Ha u v); [|exact H].
      intros Hin. apply Hu. right. exact Hin.
Qed.

Lemma occurs_ci_needs_more (lp l2 : str) (c : char) (t : str) :
  (c < 65)%N -> avoids lp c = true ->
  starts_ci l2 [] = false ->
  ~ In c t ->
  occurs_ci (lp ++ c :: l2) (t ++ [c]) = false.
Proof.
  intros Hc Ha Hl2.
  assert (Hnil : starts_ci (lp ++ c :: l2) [] = false)
    by (destruct lp; reflexivity).
  assert (Hstart : forall u, ~ In c u ->
                             starts_ci (lp ++ c :: l2) (u ++ [c]) = false).
  { intros u Hu.
    destruct (starts_ci (lp ++ c :: l2) (u ++ [c])) eqn:S; [|reflexivity].
    apply (starts_ci_through lp l2 c Hc Ha u [] Hu) in S. congruence. }
  induction t as [|a t IH]; intros Ht.
  - pose proof (Hstart [] (fun H => H)) as H0.
    change ([] ++ [c]) with [c] in *. cbn [occurs_ci].
    rewrite H0, Hnil. reflexivity.
  - change ((a :: t) ++ [c]) with (a :: (t ++ [c])). cbn [occurs_ci].
    change (a :: (t ++ [c])) with ((a :: t) ++ [c]).
    rewrite (Hstart (a :: t) Ht). simpl. apply IH.
    intros Hin. apply Ht. right. exact Hin.
Qed.

(** ** The patterns on the elements they are written for *)

Ltac right_nested := repeat (rewrite <- app_assoc || rewrite <- app_comm_cons).

Lemma match_forward_element (t x post : str) :
  ~ In dquote t ->
  occurs_ci (py "Type=") t = false ->
  ~ In 60%N x ->
  Re.match_here pattern (forward_element t x ++ post) ([], [])
  = Some ((t, x), post).
Proof.
  intros Ht Hty Hx. rewrite pattern_items_eq. unfold pattern_items.
  replace (forward_element t x ++ post)
    with (py "<Object"
          ++ py " "
          ++ (xml "Type='" ++ t ++ dquote :: py " " ++ xml "Reference='true'")
          ++ 62%N :: x ++ 60%N :: py "/Object>" ++ post)
    by (unfold forward_element; right_nested; reflexivity).
  rewrite match_literals_same.
  apply match_star_search.
  - vm_compute. intuition discriminate.
  - reflexivity.
  - change (tl (xml "Type='" ++ t ++ dquote :: py " " ++ xml "Reference='true'"))
      with (xml "ype='" ++ t ++ dquote :: py " " ++ xml "Reference='true'").
    rewrite occurs_ci_clear by reflexivity.
    change (xml "Type='") with (py "Type=" ++ [dquote]).
    apply occurs_ci_guarded; [reflexivity | exact Hty | reflexivity].
  - right_nested. rewrite match_literals_same.
    apply match_capture_stop; [exact Ht|].
    apply (match_star_search 62%N (xml "Reference='true'") _ (py " ")
             (xml "Reference='true'")).
    + vm_compute. intuition discriminate.
    + reflexivity.
    + reflexivity.
    + rewrite match_literals_same.
      apply (match_star_stop 62%N _ []); [intros []|].
      apply match_capture_stop; [exact Hx|].
      apply match_literals_only.
Qed.

Lemma match_reverse_element (t x post : str) :
  ~ In dquote t ->
  occurs_ci (py "Type=") t = false ->
  ~ In 60%N x ->
  Re.match_here pattern_reverse (reverse_element t x ++ post) ([], [])
  = Some ((t, x), post).
Proof.
  intros Ht Hty Hx. rewrite pattern_reverse_items_eq.
  unfold pattern_reverse_items.
  replace (reverse_element t x ++ post)
    with (py "<Object"
          ++ py " "
          ++ (xml "Reference='true'" ++ py " " ++ xml "Type='" ++ t
              ++ [dquote])
          ++ 62%N :: x ++ 60%N :: py "/Object>" ++ post)
    by (unfold reverse_element; right_nested; reflexivity).
  rewrite match_literals_same.
  apply match_star_search.
  - vm_compute. intuition discriminate.
  - reflexivity.
  - change (tl (xml "Reference='true'" ++ py " " ++ xml "Type='" ++ t
                ++ [dquote]))
      with (xml "eference='true' Type='" ++ t ++ [dquote]).
    rewrite occurs_ci_clear by reflexivity.
    change (xml "Reference='true'")
      with (py "Reference=" ++ dquote :: xml "true'").
    apply occurs_ci_needs_more;
      [reflexivity | reflexivity | reflexivity | exact Ht].
  - right_nested. rewrite app_nil_l. rewrite match_literals_same.
    match goal with
    | |- Re.match_here _ ?s _ = _ =>
        replace s
          with (py " " ++ (xml "Type='" ++ t ++ [dquote])
                ++ 62%N :: x ++ 60%N :: py "/Object>" ++ post)
          by (right_nested; reflexivity)
    end.
    apply match_star_search.
    + vm_compute. intuition discriminate.
    + reflexivity.
    + change (tl (xml "Type='" ++ t ++ [dquote]))
        with (xml "ype='" ++ t ++ [dquote]).
      rewrite occurs_ci_clear by reflexivity.
      change (xml "Type='") with (py "Type=" ++ [dquote]).
      apply occurs_ci_guarded; [reflexivity | exact Hty | reflexivity].
    + right_nested. rewrite app_nil_l. rewrite match_literals_same.
      apply match_capture_stop; [exact Ht|].
      apply (match_star_stop 62%N _ []); [intros []|].
      apply match_capture_stop; [exact Hx|].
      apply match_literals_only.
Qed.

(** ** Scanning past a prefix *)

Lemma findall_head (p : Re.regex) (s rest : str) (caps : Re.captures) :
  Re.match_here p s ([], []) = Some (caps, rest) ->
  In caps (Re.findall p s).
Proof.
  intros H. unfold Re.findall. destruct s; simpl; rewrite H; left; reflexivity.
Qed.

(** No match starts in a prefix in which the opening text of the pattern
    does not occur. *)
Lemma findall_prefix (l0 : char) (lit : str) (p : Re.regex) (c0 : char)
    (S : str) :
  avoids lit c0 = true ->
  forall pre,
    occurs_ci (l0 :: lit) pre = false ->
    Re.findall (Re.literals (l0 :: lit) ++ p) (pre ++ c0 :: S)
    = Re.findall (Re.literals (l0 :: lit) ++ p) (c0 :: S).
Proof.
  intros Ha. unfold Re.findall.
  induction pre as [|a pre IH]; intros H; [reflexivity|].
  cbn [occurs_ci] in H. apply orb_false_iff in H. destruct H as [Hs Ho].
  change ((a :: pre) ++ c0 :: S) with (a :: (pre ++ c0 :: S)).
  cbn [Re.findall_from].
  rewrite match_literals_fail; [apply IH; exact Ho|].
  destruct (starts_ci (l0 :: lit) (a :: pre ++ c0 :: S)) eqn:E;
    [|reflexivity].
  simpl in E, Hs. apply andb_true_iff in E. destruct E as [E1 E2].
  apply (starts_ci_before lit c0 Ha) in E2.
  rewrite E1, E2 in Hs. discriminate.
Qed.

Lemma findall_finds_forward_element (pre t x post : str) :
  occurs_ci (py "<Object") pre = false ->
  ~ In dquote t ->
  occurs_ci (py "Type=") t = false ->
  ~ In 60%N x ->
  In (t, x) (Re.findall pattern (pre ++ forward_element t x ++ post)).
Proof.
  intros Hpre Ht Hty Hx.
  pose proof (match_forward_element t x post Ht Hty Hx) as Hm.
  apply findall_head in Hm. revert Hm.
  rewrite pattern_items_eq. unfold pattern_items.
  change (py "<Object") with (60%N :: py "Object") in *.
  change (forward_element t x ++ post)
    with (60%N :: (xml "Object Type='" ++ t ++ xml "' Reference='true'>"
                   ++ x ++ py "</Object>") ++ post).
  intros Hm. rewrite findall_prefix; [exact Hm | reflexivity | exact Hpre].
Qed.

Lemma findall_finds_reverse_element (pre t x post : str) :
  occurs_ci (py "<Object") pre = false ->
  ~ In dquote t ->
  occurs_ci (py "Type=") t = false ->
  ~ In 60%N x ->
  In (t, x) (Re.findall pattern_reverse (pre ++ reverse_element t x ++ post)).
Proof.
  intros Hpre Ht Hty Hx.
  pose proof (match_reverse_element t x post Ht Hty Hx) as Hm.
  apply findall_head in Hm. revert Hm.
  rewrite pattern_reverse_items_eq. unfold pattern_reverse_items.
  change (py "<Object") with (60%N :: py "Object") in *.
  change (reverse_element t x ++ post)
    with (60%N :: (xml "Object Reference='true' Type='" ++ t ++ xml "'>"
                   ++ x ++ py "</Object>") ++ post).
  intros Hm. rewrite findall_prefix; [exact Hm | reflexivity | exact Hpre].
Qed.

(** ** The fallback path finds the elements it is written for *)

Lemma blank_app (a b : str) : blank (a ++ b) = blank a && blank b.
Proof. apply forallb_app. Qed.

Lemma strip_nil_blank (s : str) : strip s = [] -> blank s = true.
Proof.
  intros H. destruct (strip_split s) as [l [r [E [Bl Br]]]].
  rewrite E, H, !blank_app, Bl, Br. reflexivity.
Qed.

Lemma match_record_of (file_path t x : str) (ms : list (str * str)) :
  In (t, x) ms -> blank x = false ->
  In (new_record (strip x) t file_path)
     (flat_map (match_record file_path) ms).
Proof.
  intros Hin Hb. apply in_flat_map. exists (t, x). split; [exact Hin|].
  unfold match_record. cbn [fst snd].
  destruct (truthy (strip x)) eqn:E; [left; reflexivity|].
  destruct (strip x) eqn:S; [|discriminate].
  apply strip_nil_blank in S. congruence.
Qed.

(** After a prefix in which no [Object] tag opens, an element written
    [<Object Type="t" Reference="true">x</Object>] whose type holds no
    double quote and no text [Type=], and whose text holds no opening
    angle bracket and is not blank, gives its record on the fallback
    path, whatever follows it. *)
Theorem fallback_finds_forward_element :
  forall read_text ET_fromstring file_path pre t x post msg,
    read_text file_path = inr (pre ++ forward_element t x ++ post) ->
    ET_fromstring (pre ++ forward_element t x ++ post)
    = inl (ParseError msg) ->
    occurs_ci (py "<Object") pre = false ->
    ~ In dquote t ->
    occurs_ci (py "Type=") t = false ->
    ~ In 60%N x ->
    blank x = false ->
    In (new_record (strip x) t file_path)
       (fst (process_pkg_for_references read_text ET_fromstring file_path)).
Proof.
  intros read_text ET_fromstring file_path pre t x post msg Hr Hp Hpre Ht
    Hty Hx Hb.
  rewrite (process_parse_error read_text ET_fromstring file_path _ msg Hr Hp).
  cbn [fst]. unfold fallback_records.
  apply merge_keeps; try apply match_record_unnumbered.
  left. apply match_record_of; [|exact Hb].
  apply findall_finds_forward_element; assumption.
Qed.

Lemma fallback_finds_forward_element_witness :
  In (new_record (py "bar.lib") (py "Lib") (py "demo.pkg"))
     (fst (process_pkg_for_references
             (Demo.single_file
                (py "<Root>" ++ forward_element (py "Lib") (py " bar.lib ")
                 ++ py "<Object>"))
             XmlSubset.fromstring (py "demo.pkg"))).
Proof.
  apply (fallback_finds_forward_element
           (Demo.single_file
              (py "<Root>" ++ forward_element (py "Lib") (py " bar.lib ")
               ++ py "<Object>"))
           XmlSubset.fromstring (py "demo.pkg") (py "<Root>") (py "Lib")
           (py " bar.lib ") (py "<Object>") (py "not well-formed")).
  - reflexivity.
  - vm_compute. reflexivity.
  - reflexivity.
  - vm_compute. intuition discriminate.
  - reflexivity.
  - vm_compute. intuition discriminate.
  - reflexivity.
Defined.

(** The same for an element written
    [<Object Reference="true" Type="t">x</Object>]. *)
Theorem fallback_finds_reverse_element :
  forall read_text ET_fromstring file_path pre t x post msg,
    read_text file_path = inr (pre ++ reverse_element t x ++ post) ->
    ET_fromstring (pre ++ reverse_element t x ++ post)
    = inl (ParseError msg) ->
    occurs_ci (py "<Object") pre = false ->
    ~ In dquote t ->
    occurs_ci (py "Type=") t = false ->
    ~ In 60%N x ->
    blank x = false ->
    In (new_record (strip x) t file_path)
       (fst (process_pkg_for_references read_text ET_fromstring file_path)).
Proof.
  intros read_text ET_fromstring file_path pre t x post msg Hr Hp Hpre Ht
    Hty Hx Hb.
  rewrite (process_parse_error read_text ET_fromstring file_path _ msg Hr Hp).
  cbn [fst]. unfold fallback_records.
  apply merge_keeps; try apply match_record_unnumbered.
  right. apply match_record_of; [|exact Hb].
  apply findall_finds_reverse_element; assumption.
Qed.

Lemma fallback_finds_reverse_element_witness :
  In (new_record (py "bar.lib") (py "Lib") (py "demo.pkg"))
     (fst (process_pkg_for_references
             (Demo.single_file
                (py "<Root>" ++ reverse_element (py "Lib") (py " bar.lib ")
                 ++ py "<Object>"))
             XmlSubset.fromstring (py "demo.pkg"))).
Proof.
  apply (fallback_finds_reverse_element
           (Demo.single_file
              (py "<Root>" ++ reverse_element (py "Lib") (py " bar.lib ")
               ++ py "<Object>"))
           XmlSubset.fromstring (py "demo.pkg") (py "<Root>") (py "Lib")
           (py " bar.lib ") (py "<Object>") (py "not well-formed")).
  - reflexivity.
  - vm_compute. reflexivity.
  - reflexivity.
  - vm_compute. intuition discriminate.
  - reflexivity.
  - vm_compute. intuition discriminate.
  - reflexivity.
Defined.

(** ** Blank text and short content *)

(** A file in which every element has no text or blank text gives no
    record and no warning on the structured path, and so does, on the
    fallback path, a file in which every match of either pattern has
    blank text. *)
Theorem blank_text_gives_no_record :
  forall read_text ET_fromstring file_path content,
    read_text file_path = inr content ->
    (forall root,
        ET_fromstring content = inr root ->
        (forall e, In e (iter root) ->
                   match text e with
                   | Some t => blank t = true
                   | None => True
                   end) ->
        process_pkg_for_references read_text ET_fromstring file_path
        = ([], []))
    /\ (forall msg,
          ET_fromstring content = inl (ParseError msg) ->
          (forall t x,
              In (t, x) (Re.findall pattern content)
              \/ In (t, x) (Re.findall pattern_reverse content) ->
              blank x = true) ->
          process_pkg_for_references read_text ET_fromstring file_path
          = ([], [])).
Proof.
  intros read_text ET_fromstring file_path content Hr. split.
  - intros root Hp Hblank.
    rewrite (process_parsed read_text ET_fromstring file_path content root
               Hr Hp).
    f_equal. unfold structured_records.
    replace (filter contributes (iter root)) with (@nil Element);
      [reflexivity|].
    symmetry.
    assert (H : forall l, (forall e, In e l -> In e (iter root)) ->
                          filter contributes l = []).
    { induction l as [|e l IH]; intros Hl; [reflexivity|]. simpl.
      assert (Hc : contributes e = false).
      { unfold contributes, trimmed_text.
        specialize (Hblank e (Hl e (or_introl eq_refl))).
        destruct (text e) as [t|].
        - rewrite (strip_blank t Hblank). apply andb_false_r.
        - apply andb_false_r. }
      rewrite Hc. apply IH. intros e' He'. apply Hl. right. exact He'. }
    apply H. auto.
  - intros msg Hp Hblank.
    rewrite (process_parse_error read_text ET_fromstring file_path content
               msg Hr Hp).
    f_equal. unfold fallback_records, forward_records, reverse_records.
    assert (H : forall ms,
               (forall t x, In (t, x) ms -> blank x = true) ->
               flat_map (match_record file_path) ms = []).
    { induction ms as [|[t x] ms IH]; intros Hms; [reflexivity|]. simpl.
      unfold match_record at 1. cbn [fst snd].
      rewrite (strip_blank x (Hms t x (or_introl eq_refl))). simpl.
      apply IH. intros t' x' Hin. apply (Hms t' x'). right. exact Hin. }
    rewrite (H (Re.findall pattern content)),
            (H (Re.findall pattern_reverse content)); [reflexivity | |];
      intros t x Hin; apply (Hblank t x); auto.
Qed.

Lemma blank_text_gives_no_record_witness :
  process_pkg_for_references (Demo.single_file Sample.blank_content)
    XmlSubset.fromstring (py "demo.pkg") = ([], [])
  /\ process_pkg_for_references (Demo.single_file Sample.blank_malformed)
       XmlSubset.fromstring (py "demo.pkg") = ([], []).
Proof.
  split.
  - apply (proj1 (blank_text_gives_no_record
                    (Demo.single_file Sample.blank_content)
                    XmlSubset.fromstring (py "demo.pkg") Sample.blank_content
                    eq_refl)
                 Sample.blank_root).
    + vm_compute. reflexivity.
    + intros e He. vm_compute in He.
      destruct He as [<-|[<-|[]]]; vm_compute; auto.
  - apply (proj2 (blank_text_gives_no_record
                    (Demo.single_file Sample.blank_malformed)
                    XmlSubset.fromstring (py "demo.pkg")
                    Sample.blank_malformed eq_refl)
                 (py "not well-formed")).
    + vm_compute. reflexivity.
    + intros t x [H|H]; vm_compute in H;
        [destruct H as [E|[]]; injection E as <- <-; reflexivity
        | destruct H].
Defined.

Lemma forward_shape_length (w t x : str) :
  forward_shape w t x -> 40 + List.length x <= List.length w.
Proof.
  intros (o & a1 & ty & q & a2 & rf & a3 & ket & cl & -> & Ho & _
          & Hty & _ & Hq & _ & Hrf & _ & Hket & _ & Hcl).
  apply ci_eq_length in Ho, Hty, Hq, Hrf, Hket, Hcl.
  change (List.length (py "<Object")) with 7 in Ho.
  change (List.length (xml "Type='")) with 6 in Hty.
  change (List.length (xml "'")) with 1 in Hq.
  change (List.length (xml "Reference='true'")) with 16 in Hrf.
  change (List.length (py ">")) with 1 in Hket.
  change (List.length (py "</Object>")) with 9 in Hcl.
  rewrite !length_app. lia.
Qed.

Lemma reverse_shape_length (w t x : str) :
  reverse_shape w t x -> 40 + List.length x <= List.length w.
Proof.
  intros (o & a1 & rf & a2 & ty & q & a3 & ket & cl & -> & Ho & _
          & Hrf & _ & Hty & _ & Hq & _ & Hket & _ & Hcl).
  apply ci_eq_length in Ho, Hty, Hq, Hrf, Hket, Hcl.
  change (List.length (py "<Object")) with 7 in Ho.
  change (List.length (xml "Type='")) with 6 in Hty.
  change (List.length (xml "'")) with 1 in Hq.
  change (List.length (xml "Reference='true'")) with 16 in Hrf.
  change (List.length (py ">")) with 1 in Hket.
  change (List.length (py "</Object>")) with 9 in Hcl.
  rewrite !length_app. lia.
Qed.

(** On the fallback path content of fewer than forty-one characters gives
    no record and no warning; the empty file is the first case.  The
    bound is met: [Sample.shortest] has forty-one characters and gives a
    record, whose type is empty. *)
Theorem short_content_gives_no_record :
  (forall read_text ET_fromstring file_path content msg,
      read_text file_path = inr content ->
      ET_fromstring content = inl (ParseError msg) ->
      List.length content < shortest_source ->
      process_pkg_for_references read_text ET_fromstring file_path
      = ([], []))
  /\ List.length Sample.shortest = shortest_source
  /\ process_pkg_for_references (Demo.single_file Sample.shortest)
       XmlSubset.fromstring (py "demo.pkg")
     = ([new_record (py "X") [] (py "demo.pkg")], []).
Proof.
  split; [|split; vm_compute; reflexivity].
  intros read_text ET_fromstring file_path content msg Hr Hp Hlen.
  rewrite (process_parse_error read_text ET_fromstring file_path content msg
             Hr Hp).
  f_equal.
  destruct (fallback_records file_path content) as [|r l] eqn:E;
    [reflexivity|].
  assert (Hin : In r (fallback_records file_path content))
    by (rewrite E; left; reflexivity).
  apply fallback_record_origin in Hin.
  destruct Hin as [pre [w [post [t [x [-> [S [Hx _]]]]]]]].
  assert (Hw : 40 + List.length x <= List.length w)
    by (destruct S; [apply (forward_shape_length w t x)
                    | apply (reverse_shape_length w t x)]; assumption).
  assert (Hx1 : 1 <= List.length x).
  { destruct x; [exfalso; apply Hx; reflexivity | simpl; lia]. }
  rewrite !length_app in Hlen. unfold shortest_source in Hlen. lia.
Qed.

Lemma short_content_gives_no_record_witness :
  process_pkg_for_references (Demo.single_file []) XmlSubset.fromstring
    (py "empty.pkg") = ([], []).
Proof.
  apply (proj1 short_content_gives_no_record (Demo.single_file [])
           XmlSubset.fromstring (py "empty.pkg") [] (py "not well-formed")).
  - reflexivity.
  - vm_compute. reflexivity.
  - vm_compute. lia.
Defined.

(** * The program when printing and scanning can raise *)

Section FullFacts.

Variable read_text : str -> exception + str.
Variable ET_fromstring : str -> exception + Element.
Variable print_raises : str -> option exception.
Variable os_scandir : str -> scandir_outcome.
Variable os_path_join : str -> str -> str.

Let process :=
  Full.process_pkg_for_references read_text ET_fromstring print_raises.
Let run := Full.run_paths read_text ET_fromstring print_raises.

(** The call returns what the earlier definition returns whenever that
    one prints nothing. *)
Lemma full_process_silent (file_path : str) :
  snd (process_pkg_for_references read_text ET_fromstring file_path) = [] ->
  process file_path
  = Returned (fst (process_pkg_for_references read_text ET_fromstring
                     file_path)) [].
Proof.
  unfold process, Full.process_pkg_for_references, process_pkg_for_references.
  destruct (try_body read_text ET_fromstring file_path [])
    as [[e|u] results]; simpl; [discriminate | reflexivity].
Qed.

(** A failure to read, with a warning that [print] writes. *)
Lemma full_process_read_error_printed (file_path : str) (e : exception) :
  read_text file_path = inl e ->
  print_raises (warning file_path e) = None ->
  process file_path = Returned [] [warning file_path e].
Proof.
  intros Hr Hp.
  unfold process, Full.process_pkg_for_references, try_body, Body.bind,
    Body.call. rewrite Hr, Hp. reflexivity.
Qed.

(** A failure to read, with a warning on which [print] raises: the call
    raises what [print] raised. *)
Lemma full_process_read_error_raises (file_path : str) (e e' : exception) :
  read_text file_path = inl e ->
  print_raises (warning file_path e) = Some e' ->
  process file_path = Raised e' [].
Proof.
  intros Hr Hp.
  unfold process, Full.process_pkg_for_references, try_body, Body.bind,
    Body.call. rewrite Hr, Hp. reflexivity.
Qed.

Lemma full_scan_files_paths (root : str) (files : list str) :
  forall all_references printed,
    Full.scan_files read_text ET_fromstring print_raises os_path_join root
      files all_references printed
    = run (map (os_path_join root) (filter is_pkg files)) all_references
          printed.
Proof.
  induction files as [|f files IH]; intros refs printed; simpl;
    [reflexivity|].
  fold (is_pkg f). destruct (is_pkg f); simpl; [|apply IH].
  fold process.
  destruct (process (os_path_join root f)) as [r l|e l];
    [apply IH | reflexivity].
Qed.

Lemma run_paths_app (a b : list str) :
  forall all_references printed,
    run (a ++ b) all_references printed
    = match run a all_references printed with
      | Returned refs lines => run b refs lines
      | Raised e lines => Raised e lines
      end.
Proof.
  induction a as [|p a IH]; intros refs printed; simpl; [reflexivity|].
  fold process. destruct (process p) as [r l|e l]; [apply IH | reflexivity].
Qed.

Lemma full_walk_loop_paths (triples : list walk_triple) :
  forall all_references printed,
    Full.walk_loop read_text ET_fromstring print_raises os_path_join triples
      all_references printed
    = run (flat_map (triple_paths os_path_join) triples) all_references
          printed.
Proof.
  induction triples as [|[[root dirs] files] ts IH]; intros refs printed;
    simpl; [reflexivity|].
  rewrite full_scan_files_paths. fold run. rewrite run_paths_app.
  unfold triple_paths at 1. cbn [fst snd].
  destruct (run (map (os_path_join root) (filter is_pkg files)) refs printed)
    as [r l|e l]; [apply IH | reflexivity].
Qed.

(** The walker is the extractor run on the [.pkg] paths of the walk, one
    after the other, unless the scan of the root raises. *)
Lemma full_check_paths (project_path : str) :
  Full.check_reference_objects read_text ET_fromstring print_raises
    os_scandir os_path_join project_path
  = match os_scandir project_path with
    | ScandirRaises e => Raised e []
    | _ => run (walked_pkg_paths (fun p => listing_of (os_scandir p))
                  os_path_join project_path) [] []
    end.
Proof.
  unfold Full.check_reference_objects, walked_pkg_paths, os_walk.
  destruct (os_scandir project_path) as [entries| |e]; cbn [listing_of];
    [apply full_walk_loop_paths | reflexivity | reflexivity].
Qed.

(** The first call that raises ends the walk: the paths after it are not
    read, and what the calls before it returned is lost. *)
Lemma run_paths_aborts (before after : list str) (path : str)
    (e : exception) (lines : list str) :
  process path = Raised e lines ->
  forall refs0 printed0 refs printed,
    run before refs0 printed0 = Returned refs printed ->
    run (before ++ path :: after) refs0 printed0
    = Raised e (printed ++ lines).
Proof.
  intros Hp refs0 printed0 refs printed Hb.
  rewrite run_paths_app, Hb. simpl. fold process. rewrite Hp. reflexivity.
Qed.

(** When [print] writes every line, the calls return, and they return
    and print what the earlier definitions say. *)
Lemma full_process_printing (file_path : str) :
  (forall line, print_raises line = None) ->
  process file_path
  = Returned (fst (process_pkg_for_references read_text ET_fromstring
                     file_path))
             (snd (process_pkg_for_references read_text ET_fromstring
                     file_path)).
Proof.
  intros Hp.
  unfold process, Full.process_pkg_for_references, process_pkg_for_references.
  destruct (try_body read_text ET_fromstring file_path [])
    as [[e|u] results]; [rewrite Hp|]; reflexivity.
Qed.

Lemma run_paths_printing (paths : list str) :
  (forall line, print_raises line = None) ->
  forall refs printed,
    run paths refs printed
    = Returned
        (refs ++ flat_map
                   (fun p => fst (process_pkg_for_references read_text
                                    ET_fromstring p)) paths)
        (printed ++ flat_map
                      (fun p => snd (process_pkg_for_references read_text
                                       ET_fromstring p)) paths).
Proof.
  intros Hp. induction paths as [|p paths IH]; intros refs printed; simpl.
  - rewrite !app_nil_r. reflexivity.
  - fold process. rewrite (full_process_printing p Hp), IH, !app_assoc.
    reflexivity.
Qed.

Lemma full_check_printing (project_path : str) :
  (forall line, print_raises line = None) ->
  (forall e, os_scandir project_path <> ScandirRaises e) ->
  Full.check_reference_objects read_text ET_fromstring print_raises
    os_scandir os_path_join project_path
  = Returned
      (fst (check_reference_objects read_text ET_fromstring
              (fun p => listing_of (os_scandir p)) os_path_join project_path))
      (snd (check_reference_objects read_text ET_fromstring
              (fun p => listing_of (os_scandir p)) os_path_join project_path)).
Proof.
  intros Hp Hs. rewrite full_check_paths, check_reference_objects_concat.
  destruct (os_scandir project_path) as [entries| |e] eqn:E;
    [| |destruct (Hs e); reflexivity];
    rewrite (run_paths_printing _ Hp); reflexivity.
Qed.

End FullFacts.

(** C2, at the failing input.  The first [.pkg] file of the project
    cannot be read and has a Cyrillic letter in its name; the standard
    output is encoded in Latin-1.  The handler's [print] raises on the
    warning, so the extractor raises instead of returning no record, and
    the walker raises with it: the file that follows is not read and
    nothing is returned.  With a standard output that can encode the
    warning the same project gives the warning and the record of the file
    that follows. *)
Theorem C2_print_in_handler_raises :
  Faulty.read_text (posix_join (py "proj") Faulty.cyrillic_name)
  = inl (OSError (py "[Errno 13] Permission denied"))
  /\ Full.process_pkg_for_references Faulty.read_text XmlSubset.fromstring
       Faulty.latin1_stdout (posix_join (py "proj") Faulty.cyrillic_name)
     = Raised
         (OtherException
            (py "'latin-1' codec can't encode character: ordinal not in range(256)"))
         []
  /\ Full.check_reference_objects Faulty.read_text XmlSubset.fromstring
       Faulty.latin1_stdout Faulty.os_scandir posix_join (py "proj")
     = Raised
         (OtherException
            (py "'latin-1' codec can't encode character: ordinal not in range(256)"))
         []
  /\ Full.check_reference_objects Faulty.read_text XmlSubset.fromstring
       Faulty.utf8_stdout Faulty.os_scandir posix_join (py "proj")
     = Returned
         [new_record (py "kept.st") (py "File") (py "proj/z.pkg")]
         [warning (posix_join (py "proj") Faulty.cyrillic_name)
            (OSError (py "[Errno 13] Permission denied"))].
Proof. repeat split; vm_compute; reflexivity. Qed.

(** C10, as the program has it.  When [os.scandir] raises [OSError] at
    the root path, and when it lists the root and no file of the subtree
    ends in [.pkg], the walker returns the empty list, prints nothing and
    raises nothing.  When [os.scandir] raises another exception at the
    root path, the walker raises that exception. *)
Theorem C10_nothing_to_scan_or_raise :
  forall read_text ET_fromstring print_raises os_scandir os_path_join
         project_path,
    let check :=
      Full.check_reference_objects read_text ET_fromstring print_raises
        os_scandir os_path_join project_path in
    (os_scandir project_path = ScandirOSError -> check = Returned [] [])
    /\ (forall entries,
          os_scandir project_path = Listing entries ->
          (forall dir file,
              In (dir, file)
                 (flat_map (files_below os_path_join project_path) entries) ->
              is_pkg file = false) ->
          check = Returned [] [])
    /\ (forall e,
          os_scandir project_path = ScandirRaises e -> check = Raised e []).
Proof.
  intros read_text ET_fromstring print_raises os_scandir os_path_join
    project_path check. subst check.
  repeat split.
  - intros H. unfold Full.check_reference_objects. rewrite H. reflexivity.
  - intros entries H Hno. rewrite full_check_paths, H.
    rewrite nothing_walked; [reflexivity|].
    right. unfold subtree_files. rewrite H. exact Hno.
  - intros e H. unfold Full.check_reference_objects. rewrite H. reflexivity.
Qed.

Lemma C10_nothing_to_scan_or_raise_witness :
  Full.check_reference_objects Faulty.read_text XmlSubset.fromstring
    Faulty.latin1_stdout Faulty.os_scandir posix_join (py "missing")
  = Returned [] []
  /\ Full.check_reference_objects Faulty.read_text XmlSubset.fromstring
       Faulty.latin1_stdout Faulty.os_scandir posix_join (py "docs")
     = Returned [] []
  /\ Full.check_reference_objects Faulty.read_text XmlSubset.fromstring
       Faulty.latin1_stdout Faulty.os_scandir posix_join Faulty.nul_path
     = Raised (OtherException (py "embedded null character in path")) [].
Proof.
  split; [|split].
  - apply (proj1 (C10_nothing_to_scan_or_raise Faulty.read_text
                    XmlSubset.fromstring Faulty.latin1_stdout
                    Faulty.os_scandir posix_join (py "missing"))).
    reflexivity.
  - apply (proj1 (proj2 (C10_nothing_to_scan_or_raise Faulty.read_text
                           XmlSubset.fromstring Faulty.latin1_stdout
                           Faulty.os_scandir posix_join (py "docs")))
                 [File (py "readme.txt");
                  Directory (py "img") false (Some [File (py "logo.png")])]).
    + reflexivity.
    + intros dir file Hin. vm_compute in Hin.
      destruct Hin as [E|[E|[]]]; inversion E; subst; reflexivity.
  - apply (proj2 (proj2 (C10_nothing_to_scan_or_raise Faulty.read_text
                           XmlSubset.fromstring Faulty.latin1_stdout
                           Faulty.os_scandir posix_join Faulty.nul_path))).
    reflexivity.
Defined.

(** C10, as the claim states it, fails.  The path [nul_path] names
    nothing, since it holds a NUL character; [os.scandir] raises
    [ValueError] on it, [os.walk] lets that through, and the walker
    raises where the claim has it return the empty list. *)
Lemma C10_counterexample :
  In 0%N Faulty.nul_path
  /\ Faulty.os_scandir Faulty.nul_path
     = ScandirRaises (OtherException (py "embedded null character in path"))
  /\ Full.check_reference_objects Faulty.read_text XmlSubset.fromstring
       Faulty.utf8_stdout Faulty.os_scandir posix_join Faulty.nul_path
     = Raised (OtherException (py "embedded null character in path")) []
  /\ (forall printed,
         Full.check_reference_objects Faulty.read_text XmlSubset.fromstring
           Faulty.utf8_stdout Faulty.os_scandir posix_join Faulty.nul_path
         <> Returned [] printed).
Proof.
  repeat split; try (vm_compute; reflexivity).
  - vm_compute. right. left. reflexivity.
  - intros printed. vm_compute. discriminate.
Qed.
